(** * gtscio/logging: the logging service and the multiplexing connector

    A shallow embedding of
    - [packages/logging-models/src/models/ILogEntry.ts],
    - [packages/logging-models/src/connectors/multiLoggingConnector.ts],
    - [packages/logging-service/src/loggingService.ts],
    followed by the properties the specification states about them.

    TypeScript objects that are passed by reference and mutated (the log
    entry) live in a heap and are named by a location; everything else is
    passed by value.  An [async] method is a computation in a state and
    exception monad; [await] is sequencing. *)

From Stdlib Require Import ZArith.
From stdpp Require Import base option list gmap strings.

Local Open Scope Z_scope.
Local Open Scope string_scope.
Local Open Scope list_scope.

(** ** JavaScript values seen by the guards *)

(** A JavaScript [number]: the logging layer never does arithmetic on one, it
    only tells the finite values from [NaN] and the two infinities
    ([Is.number]) and passes the value on.  A whole value, such as the
    milliseconds since the epoch that [Date.now()] yields, is [Num]; any
    other finite value is a fraction. *)
Inductive number : Type :=
  | NaN
  | PosInfinity
  | NegInfinity
  | Num (ms : Z)
  | Frac (numerator : Z) (denominator : positive).

#[global] Instance number_eq_dec : EqDecision number.
Proof. solve_decision. Defined.

(** The dynamic view of a value that a guard or a comparator receives. *)
Inductive JsValue : Type :=
  | JsUndefined
  | JsString (s : string)
  | JsNumber (n : number)
  | JsObject.

#[global] Instance JsValue_eq_dec : EqDecision JsValue.
Proof. solve_decision. Defined.

Definition of_string (o : option string) : JsValue :=
  match o with Some s => JsString s | None => JsUndefined end.

Definition of_number (o : option number) : JsValue :=
  match o with Some n => JsNumber n | None => JsUndefined end.

(** ** Errors ([@gtsc/core]) *)

(** External collaborator: [BaseError] and its subclasses come from the
    package [@gtsc/core].  An error carries the name of its class, the class
    that raised it ([source]), a message key and named properties. *)
Module BaseError.
Record t : Type := mk {
  name : string;
  source : string;
  message : string;
  properties : list (string * JsValue)
}.

(** [BaseError.isErrorName(error, name)]: the error's [name] is [name]. *)
Definition isErrorName (error : t) (n : string) : bool :=
  bool_decide (name error = n).
End BaseError.

Module GuardError.
Definition CLASS_NAME : string := "GuardError".
Definition new (source message propertyName : string) (propertyValue : JsValue)
  : BaseError.t :=
  BaseError.mk CLASS_NAME source message
    [("property", JsString propertyName); ("value", propertyValue)].
End GuardError.

Module NotImplementedError.
Definition CLASS_NAME : string := "NotImplementedError".
Definition new (source method : string) : BaseError.t :=
  BaseError.mk CLASS_NAME source "common.notImplementedMethod"
    [("method", JsString method)].
End NotImplementedError.

(** What an awaited call settles to: a value, or a thrown error. *)
Inductive Outcome (A : Type) : Type :=
  | Fulfilled (value : A)
  | Rejected (reason : BaseError.t).
Arguments Fulfilled {A} value.
Arguments Rejected {A} reason.

(** ** [Is] and [Guards] ([@gtsc/core]) *)

(** White space as [String.prototype.trim] sees it.  A string is taken by
    its code units, of which the model keeps those below 256: tab, line
    feed, vertical tab, form feed, carriage return, space and no-break
    space. *)
Definition is_white_space (c : Ascii.ascii) : bool :=
  let n := Ascii.nat_of_ascii c in
  (Nat.leb 9 n && Nat.leb n 13) || Nat.eqb n 32 || Nat.eqb n 160.

Fixpoint trimStart (s : string) : string :=
  match s with
  | EmptyString => EmptyString
  | String c rest => if is_white_space c then trimStart rest else s
  end.

Fixpoint trimEnd (s : string) : string :=
  match s with
  | EmptyString => EmptyString
  | String c rest =>
      match trimEnd rest with
      | EmptyString => if is_white_space c then EmptyString else String c EmptyString
      | kept => String c kept
      end
  end.

(** [value.trim()] *)
Definition trim (s : string) : string := trimEnd (trimStart s).

(** [typeof value === "string" && value.length > 0]: the two tests of
    [Guards.stringValue] taken together. *)
Definition non_empty_string (value : JsValue) : bool :=
  match value with
  | JsString s => negb (Nat.eqb (String.length s) 0)
  | _ => false
  end.

(** External collaborator: the type tests of [@gtsc/core].  [Is.string] is
    [typeof value === "string"]; [Is.stringValue] asks in addition that
    something is left of the string once it is trimmed, so that a string of
    white space only fails it; [Is.number] is [typeof value === "number"],
    not [NaN] and finite; [Is.object] holds of objects only. *)
Module Is.
Definition undefined (value : JsValue) : bool :=
  match value with JsUndefined => true | _ => false end.

Definition string (value : JsValue) : bool :=
  match value with JsString _ => true | _ => false end.

Definition stringValue (value : JsValue) : bool :=
  match value with
  | JsString s => negb (Nat.eqb (String.length (trim s)) 0)
  | _ => false
  end.

Definition number (value : JsValue) : bool :=
  match value with
  | JsNumber NaN => false
  | JsNumber PosInfinity => false
  | JsNumber NegInfinity => false
  | JsNumber (Num _) => true
  | JsNumber (Frac _ _) => true
  | _ => false
  end.

Definition object (value : JsValue) : bool :=
  match value with JsObject => true | _ => false end.
End Is.

(** External collaborator: the guards of [@gtsc/core] throw a [GuardError]
    when their test fails and return nothing otherwise.  [Guards.stringValue]
    asks for a string and then for a length other than zero; it does not
    trim. *)
Module Guards.
Definition object (source property : string) (value : JsValue) : Outcome unit :=
  if Is.undefined value then
    Rejected (GuardError.new source "guard.objectUndefined" property
                (JsString "undefined"))
  else if negb (Is.object value) then
    Rejected (GuardError.new source "guard.object" property value)
  else Fulfilled tt.

Definition string (source property : string) (value : JsValue) : Outcome unit :=
  if negb (Is.string value) then
    Rejected (GuardError.new source "guard.string" property value)
  else Fulfilled tt.

Definition stringValue (source property : String.string) (value : JsValue)
  : Outcome unit :=
  if negb (Is.string value) then
    Rejected (GuardError.new source "guard.string" property value)
  else if negb (non_empty_string value) then
    Rejected (GuardError.new source "guard.stringEmpty" property value)
  else Fulfilled tt.
End Guards.

(** A validation error is an error raised by a guard. *)
Definition is_validation_error (e : BaseError.t) : bool :=
  BaseError.isErrorName e GuardError.CLASS_NAME.

Definition is_not_implemented (e : BaseError.t) : bool :=
  BaseError.isErrorName e NotImplementedError.CLASS_NAME.

(** ** The data model *)

Module LogLevel.
(** Modelled from the spec: [models/logLevel.ts] is not among the sources.
    The levels are the severities the specification lists, the string
    literals of the default list in the multiplexer's constructor. *)
Inductive t : Type := debug | info | warn | error | trace.

#[global] Instance eq_dec : EqDecision t.
Proof. solve_decision. Defined.

Definition to_string (l : t) : string :=
  match l with
  | debug => "debug"
  | info => "info"
  | warn => "warn"
  | error => "error"
  | trace => "trace"
  end.
End LogLevel.

Definition of_level (o : option LogLevel.t) : JsValue :=
  match o with
  | Some l => JsString (LogLevel.to_string l)
  | None => JsUndefined
  end.

(** [IError], the structured detail of a logged failure.  The logging layer
    never looks inside it. *)
Module IError.
Record t : Type := mk {
  name : string;
  message : string;
  stack : option string
}.
End IError.

(** [ILogEntry] *)
Record ILogEntry : Type := mkLogEntry {
  level : LogLevel.t;
  source : string;
  ts : option number;
  message : string;
  error : option IError.t;
  data : option JsValue
}.

Definition set_ts (e : ILogEntry) (t : option number) : ILogEntry :=
  {| level := level e; source := source e; ts := t;
     message := message e; error := error e; data := data e |}.

(** [Partial<ILogEntry>], what a query returns when a projection is given. *)
Record PartialLogEntry : Type := mkPartial {
  p_level : option LogLevel.t;
  p_source : option string;
  p_ts : option number;
  p_message : option string;
  p_error : option IError.t;
  p_data : option JsValue
}.

(** [IRequestContext] ([@gtsc/services]): only the tenant id is read here. *)
Record IRequestContext : Type := mkContext {
  tenantId : option string;
  identity : option string
}.

(** ** Filter conditions and sort orders ([@gtsc/entity]) *)

Inductive LogicalOperator : Type := And | Or.

Inductive ComparisonOperator : Type :=
  | Equals
  | NotEquals
  | GreaterThan
  | GreaterThanOrEqual
  | LessThan
  | LessThanOrEqual
  | Includes
  | NotIncludes
  | In.

(** [EntityCondition<T>]: a comparison on one property, or a group of
    conditions joined by a logical operator. *)
#[warnings="-register-all"]
Inductive EntityCondition : Type :=
  | Comparator (property : string) (operator : ComparisonOperator) (value : JsValue)
  | ComparatorGroup (conditions : list EntityCondition) (logicalOperator : LogicalOperator).

Inductive SortDirection : Type := Ascending | Descending.

Record SortProperty : Type := mkSort {
  property : string;
  sortDirection : SortDirection
}.

(** The paged result of a query. *)
Module QueryResult.
Record t : Type := mk {
  entities : list PartialLogEntry;
  cursor : option string;
  pageSize : option number;
  totalEntities : number
}.
End QueryResult.

(** ** The world the connectors act on *)

(** A log entry is a JavaScript object: callers, the multiplexer and the sinks
    all hold the same reference. *)
Definition loc : Type := positive.

(** Which connector a call goes to: the service's [_connectors.logging], or
    the multiplexer's [_loggingConnectors[index]]. *)
Inductive Target : Type :=
  | Logging
  | Sub (index : nat).

(** A recorded invocation of a connector method, with its arguments. *)
Inductive Call : Type :=
  | CallLog (target : Target) (requestContext : IRequestContext) (logEntry : loc)
  | CallQuery (target : Target) (requestContext : IRequestContext)
      (conditions : option EntityCondition)
      (sortProperties : option (list SortProperty))
      (properties : option (list string))
      (cursor : option string) (pageSize : option number).

Section Connectors.
Context {Store : Type}.

(** What a connector can observe and change: the objects on the heap, the
    wall clock, and whatever the sinks own (console, files, databases). *)
Record Env : Type := mkEnv {
  heap : gmap loc ILogEntry;
  clock : Z;
  store : Store
}.

(** Modelled from the spec: [models/ILoggingConnector.ts] is not among the
    sources.  The interface has the two operations of the specification's
    connector contract, with the signatures [MultiLoggingConnector] gives
    them; [log] may hand back an identifier, which [LoggingService.log]
    returns.  A call runs to its settlement and either fulfils or rejects. *)
Record ILoggingConnector : Type := mkConnector {
  log : IRequestContext -> loc -> Env -> Env * Outcome (option string);
  query : IRequestContext -> option EntityCondition ->
          option (list SortProperty) -> option (list string) ->
          option string -> option number -> Env -> Env * Outcome QueryResult.t
}.

(** The environment together with the record of the connector calls made so
    far, oldest first.  Connectors cannot touch the record. *)
Record World : Type := mkWorld {
  env : Env;
  calls : list Call
}.

(** ** The monad of [async] methods *)

Definition M (A : Type) : Type := World -> World * Outcome A.

Definition ret {A} (a : A) : M A := fun w => (w, Fulfilled a).

Definition throw {A} (e : BaseError.t) : M A := fun w => (w, Rejected e).

Definition bind {A B} (m : M A) (k : A -> M B) : M B :=
  fun w =>
    match m w with
    | (w', Fulfilled a) => k a w'
    | (w', Rejected e) => (w', Rejected e)
    end.

(** [try { m } catch (error) { handler }] *)
Definition try_catch {A} (m : M A) (handler : BaseError.t -> M A) : M A :=
  fun w =>
    match m w with
    | (w', Fulfilled a) => (w', Fulfilled a)
    | (w', Rejected e) => handler e w'
    end.

(** A guard either returns or throws; it has no other effect. *)
Definition guard (g : Outcome unit) : M unit := fun w => (w, g).
End Connectors.

Arguments Env : clear implicits.
Arguments ILoggingConnector : clear implicits.
Arguments World : clear implicits.
Arguments M : clear implicits.

Declare Scope async_scope.
Delimit Scope async_scope with async.
Notation "x <- m ;; k" := (bind m (fun x => k))
  (at level 100, m at next level, right associativity) : async_scope.
Notation "m ;; k" := (bind m (fun _ => k))
  (at level 100, right associativity) : async_scope.

Section Primitives.
Context {Store : Type}.
Local Open Scope async_scope.

(** [Date.now()] *)
Definition Date_now : M Store number :=
  fun w => (w, Fulfilled (Num (clock (env w)))).

(** The dynamic view of a reference: an object if it resolves, [undefined]
    otherwise (a caller outside the type checker's reach passed nothing). *)
Definition value_of (l : loc) : M Store JsValue :=
  fun w =>
    (w, Fulfilled (match heap (env w) !! l with
                   | Some _ => JsObject
                   | None => JsUndefined
                   end)).

(** Reading a property through a reference; on [undefined] this is the
    engine's [TypeError]. *)
Definition read (l : loc) : M Store ILogEntry :=
  fun w =>
    match heap (env w) !! l with
    | Some e => (w, Fulfilled e)
    | None => (w, Rejected (BaseError.mk "TypeError" "" "Cannot read properties of undefined" []))
    end.

(** Writing through a reference: every holder of [l] sees the new value. *)
Definition assign (l : loc) (e : ILogEntry) : M Store unit :=
  fun w =>
    (mkWorld (mkEnv (<[l := e]> (heap (env w))) (clock (env w)) (store (env w)))
             (calls w),
     Fulfilled tt).

(** [await connector.log(requestContext, logEntry)], recorded. *)
Definition call_log (target : Target) (connector : ILoggingConnector Store)
    (requestContext : IRequestContext) (logEntry : loc)
  : M Store (option string) :=
  fun w =>
    let '(env', r) := log connector requestContext logEntry (env w) in
    (mkWorld env' (calls w ++ [CallLog target requestContext logEntry]), r).

(** [await connector.query(requestContext, conditions, ...)], recorded. *)
Definition call_query (target : Target) (connector : ILoggingConnector Store)
    (requestContext : IRequestContext)
    (conditions : option EntityCondition)
    (sortProperties : option (list SortProperty))
    (properties : option (list string))
    (cursor : option string) (pageSize : option number)
  : M Store QueryResult.t :=
  fun w =>
    let '(env', r) :=
      query connector requestContext conditions sortProperties properties
            cursor pageSize (env w) in
    (mkWorld env'
       (calls w ++ [CallQuery target requestContext conditions sortProperties
                              properties cursor pageSize]),
     r).

(** [Promise.allSettled(promises)]: every promise runs to its settlement,
    in array order, and the outcomes are collected; the result never
    rejects.  A sink's [log] is taken to settle in one step, so the
    interleaving of the sinks' own continuations is not represented. *)
Fixpoint settle_all {A} (promises : list (M Store A)) (w : World Store)
  : World Store * list (Outcome A) :=
  match promises with
  | [] => (w, [])
  | p :: rest =>
      let '(w1, r) := p w in
      let '(w2, rs) := settle_all rest w1 in
      (w2, r :: rs)
  end.

Definition Promise_allSettled {A} (promises : list (M Store A))
  : M Store (list (Outcome A)) :=
  fun w => let '(w', rs) := settle_all promises w in (w', Fulfilled rs).
End Primitives.

(** ** [MultiLoggingConnector] *)

(** Modelled from the spec: [models/ILoggingLevelsConfig.ts] is not among the
    sources; the configuration is the optional set of enabled levels, read
    by the constructor as [config?.levels]. *)
Record ILoggingLevelsConfig : Type := mkLevelsConfig {
  levels : option (list LogLevel.t)
}.

Section MultiLoggingConnector.
Context {Store : Type}.
Local Open Scope async_scope.

Record MultiLoggingConnector : Type := mkMulti {
  _loggingConnectors : list (ILoggingConnector Store);
  _levels : list LogLevel.t
}.

Definition MultiLoggingConnector_CLASS_NAME : string := "MultiLoggingConnector".

Record MultiLoggingConnectorOptions : Type := mkMultiOptions {
  loggingConnectorTypes : list string;
  config : option ILoggingLevelsConfig
}.

(** [options.loggingConnectorTypes.map(t => LoggingConnectorFactory.get(t))]:
    the first failing lookup aborts the construction. *)
Fixpoint resolve_all (get : string -> Outcome (ILoggingConnector Store))
    (types : list string) : Outcome (list (ILoggingConnector Store)) :=
  match types with
  | [] => Fulfilled []
  | t :: rest =>
      match get t with
      | Rejected e => Rejected e
      | Fulfilled c =>
          match resolve_all get rest with
          | Rejected e => Rejected e
          | Fulfilled cs => Fulfilled (c :: cs)
          end
      end
  end.

(** The constructor.  Modelled from the spec: the registry of
    [factories/loggingConnectorFactory.ts] is not among the sources; its
    lookup [get] maps a type name to an instance or fails, and is taken
    here as the argument [LoggingConnectorFactory_get]. *)
Definition MultiLoggingConnector_new
    (LoggingConnectorFactory_get : string -> Outcome (ILoggingConnector Store))
    (options : MultiLoggingConnectorOptions)
  : Outcome MultiLoggingConnector :=
  match Guards.object MultiLoggingConnector_CLASS_NAME "options" JsObject with
  | Rejected e => Rejected e
  | Fulfilled _ =>
      match loggingConnectorTypes options with
      | [] =>
          (* Guards.arrayValue: an array with at least one element *)
          Rejected (GuardError.new MultiLoggingConnector_CLASS_NAME
                      "guard.arrayValue" "options.loggingConnectorTypes" JsObject)
      | types =>
          let levels :=
            match config options with
            | Some c =>
                match levels c with
                | Some ls => ls
                | None => [LogLevel.debug; LogLevel.info; LogLevel.warn;
                           LogLevel.error; LogLevel.trace]
                end
            | None => [LogLevel.debug; LogLevel.info; LogLevel.warn;
                       LogLevel.error; LogLevel.trace]
            end in
          match resolve_all LoggingConnectorFactory_get types with
          | Rejected e => Rejected e
          | Fulfilled cs => Fulfilled (mkMulti cs levels)
          end
      end
  end.

(** [this._levels.includes(level)] *)
Definition includes (ls : list LogLevel.t) (l : LogLevel.t) : bool :=
  bool_decide (l ∈ ls).

(** [MultiLoggingConnector.log] *)
Definition MultiLoggingConnector_log (this : MultiLoggingConnector)
    (requestContext : IRequestContext) (logEntry : loc) : M Store unit :=
  guard (Guards.object MultiLoggingConnector_CLASS_NAME "requestContext" JsObject) ;;
  guard (Guards.stringValue MultiLoggingConnector_CLASS_NAME
           "requestContext.tenantId" (of_string (tenantId requestContext))) ;;
  v <- value_of logEntry ;;
  guard (Guards.object MultiLoggingConnector_CLASS_NAME "logEntry" v) ;;
  entry <- read logEntry ;;
  if includes (_levels this) (level entry) then
    (* logEntry.ts ??= Date.now() *)
    (match ts entry with
     | None => now <- Date_now ;; assign logEntry (set_ts entry (Some now))
     | Some _ => ret tt
     end) ;;
    _settled <- Promise_allSettled
      (imap (fun index loggingConnector =>
               call_log (Sub index) loggingConnector requestContext logEntry)
            (_loggingConnectors this)) ;;
    ret tt
  else ret tt.

(** The [for ... of] loop of [query] over the connectors not yet tried,
    [index] being the position of the first of them, followed by the
    [throw] after the loop. *)
Fixpoint query_from (index : nat) (connectors : list (ILoggingConnector Store))
    (requestContext : IRequestContext)
    (conditions : option EntityCondition)
    (sortProperties : option (list SortProperty))
    (properties : option (list string))
    (cursor : option string) (pageSize : option number)
  : M Store QueryResult.t :=
  match connectors with
  | [] => throw (NotImplementedError.new MultiLoggingConnector_CLASS_NAME "query")
  | loggingConnector :: rest =>
      try_catch
        (result <- call_query (Sub index) loggingConnector requestContext
                     conditions sortProperties properties cursor pageSize ;;
         ret result)
        (fun error =>
           if negb (BaseError.isErrorName error NotImplementedError.CLASS_NAME)
           then throw error
           else query_from (S index) rest requestContext conditions
                  sortProperties properties cursor pageSize)
  end.

(** [MultiLoggingConnector.query] *)
Definition MultiLoggingConnector_query (this : MultiLoggingConnector)
    (requestContext : IRequestContext)
    (conditions : option EntityCondition)
    (sortProperties : option (list SortProperty))
    (properties : option (list string))
    (cursor : option string) (pageSize : option number)
  : M Store QueryResult.t :=
  query_from 0 (_loggingConnectors this) requestContext conditions
    sortProperties properties cursor pageSize.
End MultiLoggingConnector.

Arguments MultiLoggingConnector : clear implicits.

(** ** [LoggingService] *)

Section LoggingService.
Context {Store : Type}.
Local Open Scope async_scope.

(** [_connectors: { logging: ILoggingConnector }].  The constructor only
    checks that [connectors] and [connectors.logging] are objects, which
    every value of this record is, and stores them. *)
Record LoggingService : Type := mkService {
  logging : ILoggingConnector Store
}.

Definition LoggingService_CLASS_NAME : string := "LoggingService".

(** [array.push(x)] on the local array of clauses *)
Definition push {A} (xs : list A) (x : A) : list A := xs ++ [x].

(** The condition object [query] builds before it calls the connector. *)
Definition build_condition (level : option LogLevel.t) (source : option string)
    (timeStart timeEnd : option number) : EntityCondition :=
  let conditions := [] in
  let conditions :=
    if Is.stringValue (of_level level)
    then push conditions (Comparator "level" Equals (of_level level))
    else conditions in
  let conditions :=
    if Is.stringValue (of_string source)
    then push conditions (Comparator "source" Equals (of_string source))
    else conditions in
  let conditions :=
    if Is.number (of_number timeStart)
    then push conditions (Comparator "ts" GreaterThanOrEqual (of_number timeStart))
    else conditions in
  let conditions :=
    if Is.number (of_number timeEnd)
    then push conditions (Comparator "ts" LessThanOrEqual (of_number timeEnd))
    else conditions in
  ComparatorGroup conditions And.

(** [LoggingService.log] *)
Definition LoggingService_log (this : LoggingService)
    (requestContext : IRequestContext) (logEntry : loc)
  : M Store (option string) :=
  guard (Guards.object LoggingService_CLASS_NAME "requestContext" JsObject) ;;
  guard (Guards.string LoggingService_CLASS_NAME "requestContext.tenantId"
           (of_string (tenantId requestContext))) ;;
  v <- value_of logEntry ;;
  guard (Guards.object LoggingService_CLASS_NAME "logEntry" v) ;;
  id <- call_log Logging (logging this) requestContext logEntry ;;
  ret id.

(** [LoggingService.query] *)
Definition LoggingService_query (this : LoggingService)
    (requestContext : IRequestContext)
    (level : option LogLevel.t) (source : option string)
    (timeStart timeEnd : option number)
    (cursor : option string) (pageSize : option number)
  : M Store QueryResult.t :=
  guard (Guards.object LoggingService_CLASS_NAME "requestContext" JsObject) ;;
  guard (Guards.string LoggingService_CLASS_NAME "requestContext.tenantId"
           (of_string (tenantId requestContext))) ;;
  let condition := build_condition level source timeStart timeEnd in
  result <- call_query Logging (logging this) requestContext
              (Some condition) (Some [mkSort "ts" Descending]) None
              cursor pageSize ;;
  ret (QueryResult.mk (QueryResult.entities result) (QueryResult.cursor result)
         (QueryResult.pageSize result) (QueryResult.totalEntities result)).
End LoggingService.

Arguments LoggingService : clear implicits.

(** ** What the specification expects of the filter *)

(** One clause per supplied parameter, in the order level, source, start,
    end: the filter as the specification words it. *)
Definition clauses_per_supplied (level : option LogLevel.t) (source : option string)
    (timeStart timeEnd : option number) : list EntityCondition :=
  match level with
  | Some l => [Comparator "level" Equals (JsString (LogLevel.to_string l))]
  | None => []
  end ++
  match source with
  | Some s => [Comparator "source" Equals (JsString s)]
  | None => []
  end ++
  match timeStart with
  | Some t => [Comparator "ts" GreaterThanOrEqual (JsNumber t)]
  | None => []
  end ++
  match timeEnd with
  | Some t => [Comparator "ts" LessThanOrEqual (JsNumber t)]
  | None => []
  end.

(** The string has no character that is not white space. *)
Fixpoint blank (s : string) : bool :=
  match s with
  | EmptyString => true
  | String c rest => is_white_space c && blank rest
  end.

(** The number is neither [NaN] nor infinite. *)
Definition finite (n : number) : bool :=
  match n with
  | Num _ | Frac _ _ => true
  | NaN | PosInfinity | NegInfinity => false
  end.

(** A parameter counts for the filter when it carries a value: a level, a
    source with a character that is not white space, a time that is a finite
    number. *)
Definition usable_source (source : option string) : option string :=
  match source with
  | Some s => if blank s then None else Some s
  | None => None
  end.

Definition usable_time (t : option number) : option number :=
  match t with
  | Some n => if finite n then Some n else None
  | None => None
  end.

Definition clauses_per_usable (level : option LogLevel.t) (source : option string)
    (timeStart timeEnd : option number) : list EntityCondition :=
  clauses_per_supplied level (usable_source source)
    (usable_time timeStart) (usable_time timeEnd).

(** ** Sample sinks *)

(** The sinks of the examples own the lines they have written, each with the
    name of the sink that wrote it. *)
Abbreviation Lines := (list (string * ILogEntry)).

Definition general_error (source : string) : BaseError.t :=
  BaseError.mk "GeneralError" source "connection lost" [].

(** Writes the entry it is handed; cannot be queried. *)
Definition memory_sink (name : string) : ILoggingConnector Lines :=
  mkConnector
    (fun _ l e =>
       match heap e !! l with
       | Some entry => (mkEnv (heap e) (clock e) (store e ++ [(name, entry)]), Fulfilled None)
       | None => (e, Rejected (GuardError.new name "guard.undefined" "logEntry" JsUndefined))
       end)
    (fun _ _ _ _ _ _ e => (e, Rejected (NotImplementedError.new name "query"))).

(** Fails at every call with an operational error. *)
Definition broken_sink (name : string) : ILoggingConnector Lines :=
  mkConnector
    (fun _ _ e => (e, Rejected (general_error name)))
    (fun _ _ _ _ _ _ e => (e, Rejected (general_error name))).

(** Writes like [memory_sink] and answers every query with [page]. *)
Definition database_sink (name : string) (page : QueryResult.t)
  : ILoggingConnector Lines :=
  mkConnector
    (log (memory_sink name))
    (fun _ _ _ _ _ _ e => (e, Fulfilled page)).

Definition sample_page : QueryResult.t :=
  QueryResult.mk
    [mkPartial (Some LogLevel.error) (Some "auth") (Some (Num 150))
               (Some "denied") None None]
    None (Some (Num 20)) (Num 1).

(** Every level, as the constructor enables them by default. *)
Definition all_levels : list LogLevel.t :=
  [LogLevel.debug; LogLevel.info; LogLevel.warn; LogLevel.error; LogLevel.trace].

Definition tenant (id : string) : IRequestContext := mkContext (Some id) None.
Definition no_tenant : IRequestContext := mkContext None None.

Definition entry_without_ts (l : LogLevel.t) : ILogEntry :=
  mkLogEntry l "auth" None "hello" None None.

Definition entry_with_ts (l : LogLevel.t) (t : Z) : ILogEntry :=
  mkLogEntry l "auth" (Some (Num t)) "hello" None None.

(** A world with one entry at location [1], the clock at [1000], nothing
    written and no call made. *)
Definition world_with (entry : ILogEntry) : World Lines :=
  mkWorld (mkEnv {[ 1%positive := entry ]} 1000 []) [].

Definition empty_world : World Lines := mkWorld (mkEnv ∅ 1000 []) [].

(** ** Describing a run *)

Section Runs.
Context {Store : Type}.

(** The timestamp of the entry behind a reference, if it resolves. *)
Definition ts_at (l : loc) (e : Env Store) : option (option number) :=
  ts <$> heap e !! l.

(** The entry behind [l] with a missing timestamp filled from the clock. *)
Definition stamp (l : loc) (e : Env Store) : Env Store :=
  match heap e !! l with
  | Some entry =>
      match ts entry with
      | None =>
          mkEnv (<[l := set_ts entry (Some (Num (clock e)))]> (heap e))
                (clock e) (store e)
      | Some _ => e
      end
  | None => e
  end.

(** The environment once each of [connectors] has handled [log], in order,
    whatever each call settled to. *)
Definition env_after_logs (requestContext : IRequestContext) (logEntry : loc)
    (connectors : list (ILoggingConnector Store)) (e : Env Store) : Env Store :=
  fold_left (fun e c => (log c requestContext logEntry e).1) connectors e.

(** [log] called on the sub-connectors [first], ..., [first + n - 1]. *)
Definition log_calls (requestContext : IRequestContext) (logEntry : loc)
    (first n : nat) : list Call :=
  map (fun i => CallLog (Sub i) requestContext logEntry) (seq first n).

(** A sink that leaves a timestamp in place once it is there. *)
Definition keeps_timestamp (c : ILoggingConnector Store) : Prop :=
  ∀ requestContext l e t,
    ts_at l e = Some (Some t) ->
    ts_at l (log c requestContext l e).1 = Some (Some t).

Section Probing.
Variables (requestContext : IRequestContext)
  (conditions : option EntityCondition)
  (sortProperties : option (list SortProperty))
  (properties : option (list string))
  (cursor : option string) (pageSize : option number).

(** The sink's [query] fails here with the not-implemented error. *)
Definition unsupported (c : ILoggingConnector Store) (e : Env Store) : bool :=
  match (query c requestContext conditions sortProperties properties
               cursor pageSize e).2 with
  | Rejected err => is_not_implemented err
  | Fulfilled _ => false
  end.

Definition env_after_queries (connectors : list (ILoggingConnector Store))
    (e : Env Store) : Env Store :=
  fold_left
    (fun e c => (query c requestContext conditions sortProperties properties
                       cursor pageSize e).1)
    connectors e.

(** Each of [connectors], queried in turn, fails with not-implemented. *)
Fixpoint all_unsupported (connectors : list (ILoggingConnector Store))
    (e : Env Store) : bool :=
  match connectors with
  | [] => true
  | c :: rest =>
      unsupported c e && all_unsupported rest (env_after_queries [c] e)
  end.

(** [query] called on the sub-connectors [first], ..., [first + n - 1]. *)
Definition query_calls (first n : nat) : list Call :=
  map (fun i => CallQuery (Sub i) requestContext conditions sortProperties
                          properties cursor pageSize)
      (seq first n).
End Probing.
End Runs.

(** ** The multiplexer as a connector *)

Section Nesting.
Context {Store : Type}.

(** [class MultiLoggingConnector implements ILoggingConnector]: a multiplexer
    handed to the service, or to another multiplexer, as its connector.  Its
    [log] resolves to nothing, so no identifier comes back; the calls it
    makes to its own sub-connectors are not part of its caller's record. *)
Definition MultiLoggingConnector_connector (this : MultiLoggingConnector Store)
  : ILoggingConnector Store :=
  mkConnector
    (fun requestContext logEntry e =>
       let '(w, r) :=
         MultiLoggingConnector_log this requestContext logEntry (mkWorld e []) in
       (env w,
        match r with
        | Fulfilled _ => Fulfilled None
        | Rejected err => Rejected err
        end))
    (fun requestContext conditions sortProperties properties cursor pageSize e =>
       let '(w, r) :=
         MultiLoggingConnector_query this requestContext conditions sortProperties
           properties cursor pageSize (mkWorld e []) in
       (env w, r)).

(** What a caller can observe of a run besides the record of calls: the
    environment it leaves and what it settled to. *)
Definition observed {A} (run : World Store * Outcome A) : Env Store * Outcome A :=
  (env run.1, run.2).

(** The outcome is an answer, a result or an operational error, and not the
    not-implemented signal. *)
Definition answers {A} (o : Outcome A) : bool :=
  match o with
  | Fulfilled _ => true
  | Rejected err => negb (is_not_implemented err)
  end.

(** A sink that writes to no object on the heap. *)
Definition leaves_heap (c : ILoggingConnector Store) : Prop :=
  ∀ requestContext l e, heap (log c requestContext l e).1 = heap e.
End Nesting.

(** A registry for the examples: two type names are registered. *)
Definition sample_registry (type : string) : Outcome (ILoggingConnector Lines) :=
  if String.eqb type "console" then Fulfilled (memory_sink "console")
  else if String.eqb type "db" then Fulfilled (database_sink "db" sample_page)
  else Rejected (general_error "LoggingConnectorFactory").

(** * Properties *)

(** ** The filter built by [LoggingService.query] *)

Lemma trimEnd_empty s : Nat.eqb (String.length (trimEnd s)) 0 = blank s.
Proof.
  induction s as [|c rest IH]; [reflexivity|]. simpl.
  destruct (trimEnd rest) as [|c' kept]; simpl in *.
  - rewrite <- IH. by destruct (is_white_space c).
  - rewrite <- IH. by rewrite andb_false_r.
Qed.

Lemma blank_trimStart s : blank (trimStart s) = blank s.
Proof.
  induction s as [|c rest IH]; [reflexivity|]. simpl.
  destruct (is_white_space c) eqn:Hc; simpl; [exact IH | by rewrite Hc].
Qed.

(** Nothing is left of a string once trimmed exactly when the string is
    blank. *)
Lemma trim_empty s : Nat.eqb (String.length (trim s)) 0 = blank s.
Proof. unfold trim. by rewrite trimEnd_empty, blank_trimStart. Qed.

Lemma build_condition_usable level source timeStart timeEnd :
  build_condition level source timeStart timeEnd =
  ComparatorGroup (clauses_per_usable level source timeStart timeEnd) And.
Proof.
  unfold build_condition, clauses_per_usable, clauses_per_supplied, push,
    usable_source, usable_time.
  destruct source as [s|]; cbn [of_string Is.stringValue];
    [rewrite trim_empty; destruct (blank s)|];
    destruct level as [[]|], timeStart as [[]|], timeEnd as [[]|]; reflexivity.
Qed.

Lemma usable_is_supplied level source timeStart timeEnd :
  usable_source source = source ->
  usable_time timeStart = timeStart ->
  usable_time timeEnd = timeEnd ->
  clauses_per_usable level source timeStart timeEnd =
  clauses_per_supplied level source timeStart timeEnd.
Proof. intros Hs Ha Hb. unfold clauses_per_usable. by rewrite Hs, Ha, Hb. Qed.

Section ServiceProperties.
Context {Store : Type}.
Implicit Types (this : LoggingService Store) (w : World Store).

(** [query] step by step: the guard on the tenant id, then one call to the
    connector whose outcome is handed back. *)
Lemma LoggingService_query_run this requestContext level source timeStart
    timeEnd cursor pageSize w :
  LoggingService_query this requestContext level source timeStart timeEnd
    cursor pageSize w =
  if Is.string (of_string (tenantId requestContext)) then
    call_query Logging (logging this) requestContext
      (Some (build_condition level source timeStart timeEnd))
      (Some [mkSort "ts" Descending]) None cursor pageSize w
  else
    (w, Rejected (GuardError.new LoggingService_CLASS_NAME "guard.string"
                    "requestContext.tenantId"
                    (of_string (tenantId requestContext)))).
Proof.
  unfold LoggingService_query, bind, guard, ret, Guards.object, Guards.string.
  simpl. destruct (Is.string _); simpl; [|reflexivity].
  destruct (call_query _ _ _ _ _ _ _ _ w) as [w' [[es c p t]|e]]; reflexivity.
Qed.

Lemma call_query_calls target (connector : ILoggingConnector Store)
    requestContext conditions sortProperties properties cursor pageSize w :
  calls (call_query target connector requestContext conditions sortProperties
           properties cursor pageSize w).1 =
  calls w ++ [CallQuery target requestContext conditions sortProperties
                        properties cursor pageSize].
Proof.
  unfold call_query. destruct (query _ _ _ _ _ _ _ _) as [env' r]. reflexivity.
Qed.

(** C1 (as amended): the calls [LoggingService.query] makes.  When the
    tenant id is a string the connector's [query] is called once, with the
    conjunction of one clause per parameter that carries a value (a level;
    a source with a character that is not white space; a start and an end
    that are finite numbers), in that order, with the single sort entry
    [ts] descending and with no projection; otherwise it is not called. *)
Theorem query_passes_one_clause_per_usable_parameter this requestContext
    level source timeStart timeEnd cursor pageSize w :
  calls (LoggingService_query this requestContext level source timeStart
           timeEnd cursor pageSize w).1 =
  calls w ++
  if Is.string (of_string (tenantId requestContext)) then
    [CallQuery Logging requestContext
       (Some (ComparatorGroup
                (clauses_per_usable level source timeStart timeEnd) And))
       (Some [mkSort "ts" Descending]) None cursor pageSize]
  else [].
Proof.
  rewrite LoggingService_query_run.
  destruct (Is.string _).
  - rewrite call_query_calls, build_condition_usable. reflexivity.
  - simpl. rewrite app_nil_r. reflexivity.
Qed.

(** C10: with the four parameters omitted the connector still receives a
    condition, the conjunction of no clause; and whatever the parameters,
    the call carries some condition and no projection. *)
Theorem query_without_parameters_passes_empty_conjunction this requestContext
    cursor pageSize w :
  calls (LoggingService_query this requestContext None None None None
           cursor pageSize w).1 =
  calls w ++
  (if Is.string (of_string (tenantId requestContext)) then
     [CallQuery Logging requestContext (Some (ComparatorGroup [] And))
        (Some [mkSort "ts" Descending]) None cursor pageSize]
   else []) ∧
  ∀ level source timeStart timeEnd,
    ∃ clauses,
      calls (LoggingService_query this requestContext level source
               timeStart timeEnd cursor pageSize w).1 =
      calls w ++
      (if Is.string (of_string (tenantId requestContext)) then
         [CallQuery Logging requestContext (Some (ComparatorGroup clauses And))
            (Some [mkSort "ts" Descending]) None cursor pageSize]
       else []).
Proof.
  split.
  - rewrite LoggingService_query_run.
    destruct (Is.string _).
    + rewrite call_query_calls. reflexivity.
    + simpl. rewrite app_nil_r. reflexivity.
  - intros level source timeStart timeEnd.
    exists (clauses_per_usable level source timeStart timeEnd).
    rewrite LoggingService_query_run.
    destruct (Is.string _).
    + rewrite call_query_calls, build_condition_usable. reflexivity.
    + simpl. rewrite app_nil_r. reflexivity.
Qed.
End ServiceProperties.

(** ** Construction of the multiplexer *)

Section Construction.
Context {Store : Type}.

(** The sub-connectors are the instances the registry yields for the type
    names, in the order of the names. *)
Lemma resolve_all_order (get : string -> Outcome (ILoggingConnector Store))
    types connectors :
  resolve_all get types = Fulfilled connectors ->
  map get types = map Fulfilled connectors.
Proof.
  revert connectors. induction types as [|t types IH]; intros connectors Hres.
  - injection Hres as <-. reflexivity.
  - simpl in Hres. destruct (get t) as [c|e] eqn:Hget; [|discriminate].
    destruct (resolve_all get types) as [cs|e]; [|discriminate].
    injection Hres as <-. simpl. by rewrite Hget, (IH cs).
Qed.

Lemma MultiLoggingConnector_new_order
    (get : string -> Outcome (ILoggingConnector Store)) options multi :
  MultiLoggingConnector_new get options = Fulfilled multi ->
  map get (loggingConnectorTypes options) =
  map Fulfilled (_loggingConnectors multi).
Proof.
  unfold MultiLoggingConnector_new.
  cbv [Guards.object Is.undefined Is.object negb].
  destruct (loggingConnectorTypes options) as [|t types]; [discriminate|].
  destruct (resolve_all get (t :: types)) as [cs|e] eqn:Hres; [|discriminate].
  intros Hnew. injection Hnew as <-. simpl _loggingConnectors.
  by apply resolve_all_order.
Qed.

(** Without a configured list every level is enabled. *)
Lemma MultiLoggingConnector_new_default_levels
    (get : string -> Outcome (ILoggingConnector Store)) types multi l :
  MultiLoggingConnector_new get (mkMultiOptions types None) = Fulfilled multi ->
  l ∈ _levels multi.
Proof.
  unfold MultiLoggingConnector_new.
  cbv [Guards.object Is.undefined Is.object negb loggingConnectorTypes config].
  destruct types as [|t types]; [discriminate|].
  destruct (resolve_all get (t :: types)) as [cs|e]; [|discriminate].
  intros Hnew. injection Hnew as <-. simpl. destruct l; set_solver.
Qed.
End Construction.

(** ** Fan-out of [log] *)

Section MultiLogProperties.
Context {Store : Type}.
Implicit Types (this : MultiLoggingConnector Store) (w : World Store)
  (connectors : list (ILoggingConnector Store)).

(** The promises of the fan-out all run, each handing its environment to
    the next, and each call is recorded. *)
Lemma settle_all_logs requestContext logEntry connectors first w :
  (settle_all
     (imap (fun index loggingConnector =>
              call_log (Sub (first + index)) loggingConnector requestContext
                       logEntry)
           connectors) w).1 =
  mkWorld (env_after_logs requestContext logEntry connectors (env w))
          (calls w ++ log_calls requestContext logEntry first (length connectors)).
Proof.
  revert first w. induction connectors as [|c cs IH]; intros first w.
  - destruct w as [e cl]. unfold log_calls. simpl. by rewrite app_nil_r.
  - rewrite imap_cons. simpl.
    unfold call_log at 1. rewrite Nat.add_0_r.
    destruct (log c requestContext logEntry (env w)) as [e1 r1] eqn:Hlog.
    rewrite (imap_ext _ (fun index loggingConnector =>
               call_log (Sub (S first + index)) loggingConnector
                        requestContext logEntry)).
    2:{ intros i x _. simpl. by rewrite Nat.add_succ_r. }
    specialize (IH (S first)
                   (mkWorld e1 (calls w ++ [CallLog (Sub first) requestContext logEntry]))).
    destruct (settle_all _ _) as [w2 rs]. simpl in IH. subst w2.
    unfold env_after_logs, log_calls. simpl.
    by rewrite <- app_assoc.
Qed.

(** [log] on an entry of an enabled level, from a context that passes the
    guards: stamp the entry if need be, then fan out; the outcomes of the
    sinks are dropped. *)
Lemma MultiLoggingConnector_log_enabled this requestContext logEntry entry w :
  non_empty_string (of_string (tenantId requestContext)) = true ->
  heap (env w) !! logEntry = Some entry ->
  level entry ∈ _levels this ->
  MultiLoggingConnector_log this requestContext logEntry w =
  (mkWorld
     (env_after_logs requestContext logEntry (_loggingConnectors this)
        (stamp logEntry (env w)))
     (calls w ++ log_calls requestContext logEntry 0
                   (length (_loggingConnectors this))),
   Fulfilled tt).
Proof.
  intros Hctx Hentry Hlevel.
  unfold MultiLoggingConnector_log, bind, guard, value_of, read, ret.
  unfold Guards.object, Guards.stringValue.
  assert (Is.string (of_string (tenantId requestContext)) = true) as Hstr.
  { destruct (tenantId requestContext); [reflexivity | discriminate]. }
  rewrite Hstr, Hctx, Hentry. simpl.
  unfold includes. rewrite bool_decide_eq_true_2 by assumption.
  unfold Promise_allSettled, stamp. rewrite Hentry.
  destruct (ts entry) as [t|] eqn:Hts.
  - pose proof (settle_all_logs requestContext logEntry
                  (_loggingConnectors this) 0 w) as Hrun.
    simpl in Hrun. destruct (settle_all _ w) as [w' rs].
    simpl in Hrun. by subst w'.
  - unfold Date_now, assign. simpl.
    match goal with
    | |- context [settle_all ?ps ?w0] =>
        pose proof (settle_all_logs requestContext logEntry
                      (_loggingConnectors this) 0 w0) as Hrun;
        simpl in Hrun; destruct (settle_all ps w0) as [w' rs]
    end.
    simpl in Hrun. by subst w'.
Qed.

(** A context whose tenant id is missing or empty stops [log] at the guard:
    nothing is read, written or called. *)
Lemma MultiLoggingConnector_log_guarded this requestContext logEntry w :
  non_empty_string (of_string (tenantId requestContext)) = false ->
  ∃ e, MultiLoggingConnector_log this requestContext logEntry w = (w, Rejected e)
       ∧ is_validation_error e = true.
Proof.
  intros Hctx.
  unfold MultiLoggingConnector_log, bind, guard, Guards.object, Guards.stringValue.
  simpl. rewrite Hctx.
  destruct (Is.string _); simpl; eexists; split; reflexivity.
Qed.

(** An entry of a level that is not enabled is dropped. *)
Lemma MultiLoggingConnector_log_disabled this requestContext logEntry entry w :
  non_empty_string (of_string (tenantId requestContext)) = true ->
  heap (env w) !! logEntry = Some entry ->
  level entry ∉ _levels this ->
  MultiLoggingConnector_log this requestContext logEntry w = (w, Fulfilled tt).
Proof.
  intros Hctx Hentry Hlevel.
  unfold MultiLoggingConnector_log, bind, guard, value_of, read, ret.
  unfold Guards.object, Guards.stringValue.
  assert (Is.string (of_string (tenantId requestContext)) = true) as Hstr.
  { destruct (tenantId requestContext); [reflexivity | discriminate]. }
  rewrite Hstr, Hctx, Hentry. simpl.
  unfold includes. by rewrite bool_decide_eq_false_2.
Qed.

Lemma ts_at_stamp_missing l (e : Env Store) entry :
  heap e !! l = Some entry -> ts entry = None ->
  ts_at l (stamp l e) = Some (Some (Num (clock e))).
Proof.
  intros Hentry Hts. unfold stamp, ts_at. rewrite Hentry, Hts. simpl.
  by rewrite lookup_insert_eq.
Qed.

Lemma stamp_present l (e : Env Store) entry t :
  heap e !! l = Some entry -> ts entry = Some t -> stamp l e = e.
Proof. intros Hentry Hts. unfold stamp. by rewrite Hentry, Hts. Qed.

Lemma env_after_logs_keeps_timestamp requestContext l connectors (e : Env Store) t :
  Forall keeps_timestamp connectors ->
  ts_at l e = Some (Some t) ->
  ts_at l (env_after_logs requestContext l connectors e) = Some (Some t).
Proof.
  intros Hkeep. revert e.
  induction Hkeep as [|c cs Hc _ IH]; intros e Hts; [exact Hts|].
  unfold env_after_logs. simpl. apply IH, Hc, Hts.
Qed.

(** C2: an entry whose level is not enabled reaches no sub-connector; the
    call returns normally and leaves the world, the record of calls
    included, as it was. *)
Theorem log_discards_disabled_level this requestContext logEntry entry w :
  non_empty_string (of_string (tenantId requestContext)) = true ->
  heap (env w) !! logEntry = Some entry ->
  level entry ∉ _levels this ->
  MultiLoggingConnector_log this requestContext logEntry w = (w, Fulfilled tt)
  ∧ calls (MultiLoggingConnector_log this requestContext logEntry w).1 = calls w.
Proof.
  intros Hctx Hentry Hlevel.
  rewrite (MultiLoggingConnector_log_disabled _ _ _ entry) by assumption.
  split; reflexivity.
Qed.

(** C3 (as amended): an entry without a timestamp whose level is enabled
    is stamped with the clock as read on entry, before the first
    sub-connector is called, and the multiplexer does nothing else to it;
    with sinks that keep a timestamp in place the entry carries that
    timestamp when [log] returns. *)
Theorem log_stamps_missing_timestamp this requestContext logEntry entry w :
  non_empty_string (of_string (tenantId requestContext)) = true ->
  heap (env w) !! logEntry = Some entry ->
  ts entry = None ->
  level entry ∈ _levels this ->
  let w' := (MultiLoggingConnector_log this requestContext logEntry w).1 in
  env w' = env_after_logs requestContext logEntry (_loggingConnectors this)
             (stamp logEntry (env w))
  ∧ ts_at logEntry (stamp logEntry (env w)) = Some (Some (Num (clock (env w))))
  ∧ (Forall keeps_timestamp (_loggingConnectors this) ->
     ts_at logEntry (env w') = Some (Some (Num (clock (env w))))).
Proof.
  intros Hctx Hentry Hts Hlevel.
  rewrite (MultiLoggingConnector_log_enabled _ _ _ entry) by assumption.
  simpl. split; [reflexivity|].
  pose proof (ts_at_stamp_missing _ _ _ Hentry Hts) as Hstamp.
  split; [exact Hstamp|].
  intros Hkeep. by apply env_after_logs_keeps_timestamp.
Qed.

(** C7: for an entry of an enabled level [log] calls every sub-connector
    once, in construction order; each call acts on the environment its
    predecessor left, whatever that one settled to; when the last has
    settled [log] returns normally. *)
Theorem log_fans_out_and_swallows_failures this requestContext logEntry entry w :
  non_empty_string (of_string (tenantId requestContext)) = true ->
  heap (env w) !! logEntry = Some entry ->
  level entry ∈ _levels this ->
  MultiLoggingConnector_log this requestContext logEntry w =
  (mkWorld
     (env_after_logs requestContext logEntry (_loggingConnectors this)
        (stamp logEntry (env w)))
     (calls w ++ log_calls requestContext logEntry 0
                   (length (_loggingConnectors this))),
   Fulfilled tt).
Proof. apply MultiLoggingConnector_log_enabled. Qed.

(** C9: a timestamp that is set when [log] is called is not written by the
    multiplexer: the environment [log] leaves is the one it found, or the
    one its sinks made of it; with sinks that keep a timestamp in place the
    entry's timestamp is the original one when [log] returns or throws. *)
Theorem log_keeps_present_timestamp this requestContext logEntry entry t w :
  heap (env w) !! logEntry = Some entry ->
  ts entry = Some t ->
  let w' := (MultiLoggingConnector_log this requestContext logEntry w).1 in
  (env w' = env w
   ∨ env w' = env_after_logs requestContext logEntry (_loggingConnectors this)
                (env w))
  ∧ (Forall keeps_timestamp (_loggingConnectors this) ->
     ts_at logEntry (env w') = Some (Some t)).
Proof.
  intros Hentry Hts.
  assert (ts_at logEntry (env w) = Some (Some t)) as Hbefore.
  { unfold ts_at. by rewrite Hentry; simpl; rewrite Hts. }
  destruct (non_empty_string (of_string (tenantId requestContext))) eqn:Hctx.
  - destruct (decide (level entry ∈ _levels this)) as [Hin|Hout].
    + rewrite (MultiLoggingConnector_log_enabled _ _ _ entry) by assumption.
      simpl. rewrite (stamp_present _ _ _ _ Hentry Hts).
      split; [by right|].
      intros Hkeep. by apply env_after_logs_keeps_timestamp.
    + rewrite (MultiLoggingConnector_log_disabled _ _ _ entry) by assumption.
      simpl. split; [by left | done].
  - destruct (MultiLoggingConnector_log_guarded this _ logEntry w Hctx)
      as (e & -> & _).
    simpl. split; [by left | done].
Qed.
End MultiLogProperties.

(** ** Probing for a sink that answers [query] *)

Section MultiQueryProperties.
Context {Store : Type}.
Variables (requestContext : IRequestContext)
  (conditions : option EntityCondition)
  (sortProperties : option (list SortProperty))
  (properties : option (list string))
  (cursor : option string) (pageSize : option number).
Implicit Types (this : MultiLoggingConnector Store) (w : World Store)
  (connectors : list (ILoggingConnector Store)).

Local Abbreviation query_of c :=
  (query c requestContext conditions sortProperties properties cursor pageSize).
Local Abbreviation loop_from first connectors :=
  (query_from first connectors requestContext conditions sortProperties
     properties cursor pageSize).
Local Abbreviation probed first n :=
  (query_calls requestContext conditions sortProperties properties cursor
     pageSize first n).
Local Abbreviation after connectors e :=
  (env_after_queries requestContext conditions sortProperties properties
     cursor pageSize connectors e).
Local Abbreviation unsupported_all connectors e :=
  (all_unsupported requestContext conditions sortProperties properties
     cursor pageSize connectors e).

(** One turn of the loop, by what the sub-connector's [query] settles to. *)
Lemma query_from_fulfilled first c rest w e' result :
  query_of c (env w) = (e', Fulfilled result) ->
  loop_from first (c :: rest) w =
  (mkWorld e' (calls w ++ probed first 1), Fulfilled result).
Proof.
  intros Hq. simpl. unfold try_catch, bind, call_query, ret. by rewrite Hq.
Qed.

Lemma query_from_rejected first c rest w e' err :
  query_of c (env w) = (e', Rejected err) ->
  is_not_implemented err = false ->
  loop_from first (c :: rest) w =
  (mkWorld e' (calls w ++ probed first 1), Rejected err).
Proof.
  intros Hq Herr. simpl. unfold try_catch, bind, call_query, ret, throw.
  rewrite Hq. unfold is_not_implemented in Herr. by rewrite Herr.
Qed.

Lemma query_from_unsupported first c rest w :
  unsupported requestContext conditions sortProperties properties cursor
    pageSize c (env w) = true ->
  loop_from first (c :: rest) w =
  loop_from (S first) rest (mkWorld (after [c] (env w)) (calls w ++ probed first 1)).
Proof.
  unfold unsupported, env_after_queries. intros Hq. simpl.
  unfold try_catch, bind, call_query, ret, throw.
  destruct (query_of c (env w)) as [e' [result|err]]; simpl in *; [discriminate|].
  unfold is_not_implemented in Hq. by rewrite Hq.
Qed.

(** The loop passes over a run of sinks that do not support [query]. *)
Lemma query_from_skips pre rest first w :
  unsupported_all pre (env w) = true ->
  loop_from first (pre ++ rest) w =
  loop_from (first + length pre) rest
    (mkWorld (after pre (env w)) (calls w ++ probed first (length pre))).
Proof.
  revert first w. induction pre as [|c pre IH]; intros first w Hall.
  - destruct w as [e cl]. unfold query_calls. simpl.
    by rewrite Nat.add_0_r, app_nil_r.
  - simpl in Hall. apply andb_prop in Hall as [Hc Hpre].
    rewrite <- app_comm_cons, query_from_unsupported by exact Hc.
    rewrite IH by exact Hpre. simpl.
    rewrite Nat.add_succ_r, <- app_assoc. reflexivity.
Qed.

(** C4: with sub-connectors [A; B; C], [A] failing with not-implemented
    and [B] answering, [query] returns [B]'s result as it is; [A] and [B]
    have been queried, in that order, and [C] has not. *)
Theorem query_returns_first_responder A B C enabled w e1 err e2 result :
  query_of A (env w) = (e1, Rejected err) ->
  is_not_implemented err = true ->
  query_of B e1 = (e2, Fulfilled result) ->
  MultiLoggingConnector_query (mkMulti [A; B; C] enabled) requestContext
    conditions sortProperties properties cursor pageSize w =
  (mkWorld e2
     (calls w ++
      [CallQuery (Sub 0) requestContext conditions sortProperties properties
                 cursor pageSize;
       CallQuery (Sub 1) requestContext conditions sortProperties properties
                 cursor pageSize]),
   Fulfilled result).
Proof.
  intros HA Herr HB. unfold MultiLoggingConnector_query. simpl _loggingConnectors.
  rewrite query_from_unsupported.
  2:{ unfold unsupported. by rewrite HA. }
  unfold env_after_queries. simpl fold_left. rewrite HA.
  rewrite (query_from_fulfilled _ _ _ _ e2 result) by exact HB.
  simpl. by rewrite <- app_assoc.
Qed.

(** C5: when every sub-connector, queried in turn, fails with
    not-implemented, [query] has tried them all in construction order and
    throws a not-implemented error of its own. *)
Theorem query_not_implemented_when_none_supports this w :
  unsupported_all (_loggingConnectors this) (env w) = true ->
  MultiLoggingConnector_query this requestContext conditions sortProperties
    properties cursor pageSize w =
  (mkWorld (after (_loggingConnectors this) (env w))
           (calls w ++ probed 0 (length (_loggingConnectors this))),
   Rejected (NotImplementedError.new "MultiLoggingConnector" "query")).
Proof.
  intros Hall. unfold MultiLoggingConnector_query.
  rewrite <- (app_nil_r (_loggingConnectors this)) at 1.
  rewrite query_from_skips by exact Hall. reflexivity.
Qed.

(** C6: when the loop reaches a sub-connector whose [query] fails with an
    error other than not-implemented, [query] throws that very error; the
    sub-connectors after it are not queried. *)
Theorem query_propagates_other_errors this pre c post w e' err :
  _loggingConnectors this = pre ++ c :: post ->
  unsupported_all pre (env w) = true ->
  query_of c (after pre (env w)) = (e', Rejected err) ->
  is_not_implemented err = false ->
  MultiLoggingConnector_query this requestContext conditions sortProperties
    properties cursor pageSize w =
  (mkWorld e' (calls w ++ probed 0 (S (length pre))), Rejected err).
Proof.
  intros Hcs Hpre Hc Herr. unfold MultiLoggingConnector_query. rewrite Hcs.
  rewrite query_from_skips by exact Hpre.
  rewrite (query_from_rejected _ _ _ _ e' err) by assumption.
  simpl. unfold query_calls.
  by rewrite (seq_S (length pre) 0), map_app, app_assoc.
Qed.
End MultiQueryProperties.

(** ** Validation of the request context *)

Section ContextGuards.
Context {Store : Type}.

Lemma LoggingService_log_guarded (service : LoggingService Store)
    requestContext logEntry (w : World Store) :
  tenantId requestContext = None ->
  ∃ e, LoggingService_log service requestContext logEntry w = (w, Rejected e)
       ∧ is_validation_error e = true.
Proof.
  intros Hctx. unfold LoggingService_log, bind, guard, Guards.object, Guards.string.
  rewrite Hctx. simpl. eexists; split; reflexivity.
Qed.

Lemma LoggingService_query_guarded (service : LoggingService Store)
    requestContext level source timeStart timeEnd cursor pageSize
    (w : World Store) :
  tenantId requestContext = None ->
  ∃ e, LoggingService_query service requestContext level source timeStart
         timeEnd cursor pageSize w = (w, Rejected e)
       ∧ is_validation_error e = true.
Proof.
  intros Hctx. rewrite LoggingService_query_run, Hctx. simpl.
  eexists; split; reflexivity.
Qed.

(** C8 (as amended): [MultiLoggingConnector.log] rejects a context whose
    tenant id is missing or empty, and [LoggingService.log] and
    [LoggingService.query] reject a context whose tenant id is missing;
    each throws a validation error and leaves the world, the record of
    connector calls included, as it was. *)
Theorem tenant_guard_precedes_connector_calls
    (service : LoggingService Store) (multi : MultiLoggingConnector Store)
    requestContext logEntry level source timeStart timeEnd cursor pageSize
    (w : World Store) :
  non_empty_string (of_string (tenantId requestContext)) = false ->
  (∃ e, MultiLoggingConnector_log multi requestContext logEntry w = (w, Rejected e)
        ∧ is_validation_error e = true)
  ∧ (tenantId requestContext = None ->
     (∃ e, LoggingService_log service requestContext logEntry w = (w, Rejected e)
           ∧ is_validation_error e = true)
     ∧ (∃ e, LoggingService_query service requestContext level source
               timeStart timeEnd cursor pageSize w = (w, Rejected e)
             ∧ is_validation_error e = true)).
Proof.
  intros Hctx. split.
  - by apply MultiLoggingConnector_log_guarded.
  - intros Hnone. split.
    + by apply LoggingService_log_guarded.
    + by apply LoggingService_query_guarded.
Qed.
End ContextGuards.

(** * The properties at work on the sample sinks *)

Lemma memory_sink_keeps_timestamp name : keeps_timestamp (memory_sink name).
Proof.
  intros requestContext l e t Hts. unfold ts_at in *.
  cbn [log memory_sink].
  destruct (heap e !! l) as [entry|] eqn:Hentry; [|discriminate].
  cbn [fst heap]. by rewrite Hentry.
Qed.

Lemma broken_sink_keeps_timestamp name : keeps_timestamp (broken_sink name).
Proof. intros requestContext l e t Hts. exact Hts. Qed.

(** The example of the specification: four parameters, four clauses. *)
Example four_parameters_four_clauses :
  build_condition (Some LogLevel.error) (Some "auth") (Some (Num 100)) (Some (Num 200)) =
  ComparatorGroup
    [Comparator "level" Equals (JsString "error");
     Comparator "source" Equals (JsString "auth");
     Comparator "ts" GreaterThanOrEqual (JsNumber (Num 100));
     Comparator "ts" LessThanOrEqual (JsNumber (Num 200))] And.
Proof. reflexivity. Qed.

Example source_omitted_three_clauses :
  build_condition (Some LogLevel.error) None (Some (Num 100)) (Some (Num 200)) =
  ComparatorGroup
    [Comparator "level" Equals (JsString "error");
     Comparator "ts" GreaterThanOrEqual (JsNumber (Num 100));
     Comparator "ts" LessThanOrEqual (JsNumber (Num 200))] And.
Proof. reflexivity. Qed.

(** C1, as first stated, fails: a parameter can be supplied and get no
    clause.  With the other three parameters in place, a source that is the
    empty string or a space, a start that is infinite and an end that is
    [NaN] each leave three clauses where four parameters are supplied. *)
Lemma unusable_parameter_contributes_no_clause :
  let service := mkService (database_sink "db" sample_page) in
  let made source timeStart timeEnd :=
    calls (LoggingService_query service (tenant "t1") (Some LogLevel.error)
             source timeStart timeEnd None None empty_world).1 in
  let stated source timeStart timeEnd :=
    [CallQuery Logging (tenant "t1")
       (Some (ComparatorGroup
                (clauses_per_supplied (Some LogLevel.error) source timeStart
                   timeEnd) And))
       (Some [mkSort "ts" Descending]) None None None] in
  made (Some "") (Some (Num 100)) (Some (Num 200)) =
    [CallQuery Logging (tenant "t1")
       (Some (ComparatorGroup
                [Comparator "level" Equals (JsString "error");
                 Comparator "ts" GreaterThanOrEqual (JsNumber (Num 100));
                 Comparator "ts" LessThanOrEqual (JsNumber (Num 200))] And))
       (Some [mkSort "ts" Descending]) None None None]
  ∧ made (Some "") (Some (Num 100)) (Some (Num 200))
    ≠ stated (Some "") (Some (Num 100)) (Some (Num 200))
  ∧ made (Some " ") (Some (Num 100)) (Some (Num 200))
    ≠ stated (Some " ") (Some (Num 100)) (Some (Num 200))
  ∧ made (Some "auth") (Some PosInfinity) (Some (Num 200)) =
    [CallQuery Logging (tenant "t1")
       (Some (ComparatorGroup
                [Comparator "level" Equals (JsString "error");
                 Comparator "source" Equals (JsString "auth");
                 Comparator "ts" LessThanOrEqual (JsNumber (Num 200))] And))
       (Some [mkSort "ts" Descending]) None None None]
  ∧ made (Some "auth") (Some PosInfinity) (Some (Num 200))
    ≠ stated (Some "auth") (Some PosInfinity) (Some (Num 200))
  ∧ made (Some "auth") (Some (Num 100)) (Some NaN)
    ≠ stated (Some "auth") (Some (Num 100)) (Some NaN).
Proof.
  repeat split; try reflexivity; intros Heq; vm_compute in Heq; discriminate Heq.
Qed.

Lemma log_discards_disabled_level_witness :
  let multi := mkMulti [memory_sink "A"] [LogLevel.error] in
  let w := world_with (entry_without_ts LogLevel.debug) in
  MultiLoggingConnector_log multi (tenant "t1") 1%positive w = (w, Fulfilled tt)
  ∧ calls (MultiLoggingConnector_log multi (tenant "t1") 1%positive w).1 = calls w.
Proof.
  apply (log_discards_disabled_level _ _ _ (entry_without_ts LogLevel.debug)).
  - reflexivity.
  - reflexivity.
  - simpl. intros Hin. apply list_elem_of_singleton in Hin. discriminate Hin.
Defined.

(** C3, as first stated, fails: an entry without a timestamp whose level is
    not enabled is dropped before the timestamp is filled in; [log] returns
    normally and the entry still has none. *)
Lemma disabled_level_is_not_stamped :
  let multi := mkMulti [memory_sink "A"] [LogLevel.error] in
  let w := world_with (entry_without_ts LogLevel.debug) in
  ts_at 1%positive (env w) = Some None
  ∧ (MultiLoggingConnector_log multi (tenant "t1") 1%positive w).2 = Fulfilled tt
  ∧ ts_at 1%positive
      (env (MultiLoggingConnector_log multi (tenant "t1") 1%positive w).1)
    = Some None.
Proof. repeat split; reflexivity. Qed.

Lemma log_stamps_missing_timestamp_witness :
  let multi := mkMulti [memory_sink "A"; broken_sink "B"] all_levels in
  let w := world_with (entry_without_ts LogLevel.info) in
  let w' := (MultiLoggingConnector_log multi (tenant "t1") 1%positive w).1 in
  env w' = env_after_logs (tenant "t1") 1%positive (_loggingConnectors multi)
             (stamp 1%positive (env w))
  ∧ ts_at 1%positive (stamp 1%positive (env w)) = Some (Some (Num 1000))
  ∧ ts_at 1%positive (env w') = Some (Some (Num 1000)).
Proof.
  destruct (log_stamps_missing_timestamp
              (mkMulti [memory_sink "A"; broken_sink "B"] all_levels)
              (tenant "t1") 1%positive (entry_without_ts LogLevel.info)
              (world_with (entry_without_ts LogLevel.info)))
    as (Henv & Hstamp & Hkept).
  - reflexivity.
  - reflexivity.
  - reflexivity.
  - simpl. unfold all_levels. set_solver.
  - split; [exact Henv|]. split; [exact Hstamp|].
    apply Hkept. repeat constructor.
    + apply memory_sink_keeps_timestamp.
    + apply broken_sink_keeps_timestamp.
Defined.

Lemma log_fans_out_and_swallows_failures_witness :
  let multi := mkMulti [memory_sink "A"; broken_sink "B"; memory_sink "C"] all_levels in
  let w := world_with (entry_without_ts LogLevel.warn) in
  MultiLoggingConnector_log multi (tenant "t1") 1%positive w =
  (mkWorld
     (env_after_logs (tenant "t1") 1%positive (_loggingConnectors multi)
        (stamp 1%positive (env w)))
     (calls w ++ log_calls (tenant "t1") 1%positive 0 3),
   Fulfilled tt).
Proof.
  apply (log_fans_out_and_swallows_failures
           (mkMulti [memory_sink "A"; broken_sink "B"; memory_sink "C"] all_levels)
           (tenant "t1") 1%positive (entry_without_ts LogLevel.warn)).
  - reflexivity.
  - reflexivity.
  - simpl. unfold all_levels. set_solver.
Defined.

(** The example of the specification: with sinks [A] (writes) and [B]
    (throws), [log] returns normally and the line [A] wrote is there; so is
    the line of a sink that comes after [B]. *)
Example failing_sink_does_not_stop_the_others :
  let multi := mkMulti [memory_sink "A"; broken_sink "B"; memory_sink "C"] all_levels in
  let run := MultiLoggingConnector_log multi (tenant "t1") 1%positive
               (world_with (entry_without_ts LogLevel.warn)) in
  run.2 = Fulfilled tt
  ∧ store (env run.1) =
    [("A", mkLogEntry LogLevel.warn "auth" (Some (Num 1000)) "hello" None None);
     ("C", mkLogEntry LogLevel.warn "auth" (Some (Num 1000)) "hello" None None)]
  ∧ calls run.1 =
    [CallLog (Sub 0) (tenant "t1") 1%positive;
     CallLog (Sub 1) (tenant "t1") 1%positive;
     CallLog (Sub 2) (tenant "t1") 1%positive].
Proof. repeat split; reflexivity. Qed.

Lemma log_keeps_present_timestamp_witness :
  let multi := mkMulti [memory_sink "A"; broken_sink "B"] all_levels in
  ts_at 1%positive
    (env (MultiLoggingConnector_log multi (tenant "t1") 1%positive
            (world_with (entry_with_ts LogLevel.info 42))).1)
  = Some (Some (Num 42)).
Proof.
  destruct (log_keeps_present_timestamp
              (mkMulti [memory_sink "A"; broken_sink "B"] all_levels)
              (tenant "t1") 1%positive (entry_with_ts LogLevel.info 42)
              (Num 42) (world_with (entry_with_ts LogLevel.info 42)))
    as [_ Hkept].
  - reflexivity.
  - reflexivity.
  - apply Hkept. repeat constructor.
    + apply memory_sink_keeps_timestamp.
    + apply broken_sink_keeps_timestamp.
Defined.

Lemma query_returns_first_responder_witness :
  MultiLoggingConnector_query
    (mkMulti [memory_sink "A"; database_sink "B" sample_page; broken_sink "C"]
             all_levels)
    (tenant "t1") None None None None None empty_world =
  (mkWorld (env empty_world)
     [CallQuery (Sub 0) (tenant "t1") None None None None None;
      CallQuery (Sub 1) (tenant "t1") None None None None None],
   Fulfilled sample_page).
Proof.
  apply (query_returns_first_responder (tenant "t1") None None None None None
           (memory_sink "A") (database_sink "B" sample_page) (broken_sink "C")
           all_levels empty_world (env empty_world)
           (NotImplementedError.new "A" "query") (env empty_world) sample_page).
  - reflexivity.
  - reflexivity.
  - reflexivity.
Defined.

Lemma query_not_implemented_when_none_supports_witness :
  MultiLoggingConnector_query
    (mkMulti [memory_sink "A"; memory_sink "B"] all_levels)
    (tenant "t1") None None None None None empty_world =
  (mkWorld (env empty_world)
     [CallQuery (Sub 0) (tenant "t1") None None None None None;
      CallQuery (Sub 1) (tenant "t1") None None None None None],
   Rejected (NotImplementedError.new "MultiLoggingConnector" "query")).
Proof.
  apply (query_not_implemented_when_none_supports (tenant "t1") None None None
           None None (mkMulti [memory_sink "A"; memory_sink "B"] all_levels)
           empty_world).
  reflexivity.
Defined.

Lemma query_propagates_other_errors_witness :
  MultiLoggingConnector_query
    (mkMulti [memory_sink "A"; broken_sink "B"; database_sink "C" sample_page]
             all_levels)
    (tenant "t1") None None None None None empty_world =
  (mkWorld (env empty_world)
     [CallQuery (Sub 0) (tenant "t1") None None None None None;
      CallQuery (Sub 1) (tenant "t1") None None None None None],
   Rejected (general_error "B")).
Proof.
  apply (query_propagates_other_errors (tenant "t1") None None None None None
           (mkMulti [memory_sink "A"; broken_sink "B";
                     database_sink "C" sample_page] all_levels)
           [memory_sink "A"] (broken_sink "B") [database_sink "C" sample_page]
           empty_world (env empty_world) (general_error "B")).
  - reflexivity.
  - reflexivity.
  - reflexivity.
  - reflexivity.
Defined.

(** C8, as first stated, fails: [MultiLoggingConnector.query] has no guard,
    so with no tenant id it queries its sub-connector and returns the page;
    and the service's guard lets an empty tenant id through to the
    connector, on [log] and on [query] alike. *)
Lemma missing_or_empty_tenant_reaches_connector :
  let multi := mkMulti [database_sink "db" sample_page] all_levels in
  let service := mkService (database_sink "db" sample_page) in
  let w := world_with (entry_with_ts LogLevel.info 42) in
  MultiLoggingConnector_query multi no_tenant None None None None None w =
    (mkWorld (env w) [CallQuery (Sub 0) no_tenant None None None None None],
     Fulfilled sample_page)
  ∧ calls (LoggingService_log service (tenant "") 1%positive w).1 =
    [CallLog Logging (tenant "") 1%positive]
  ∧ (LoggingService_log service (tenant "") 1%positive w).2 = Fulfilled None
  ∧ (LoggingService_query service (tenant "") None None None None None None w).2 =
    Fulfilled sample_page.
Proof. repeat split; reflexivity. Qed.

Lemma tenant_guard_precedes_connector_calls_witness :
  let multi := mkMulti [database_sink "db" sample_page] all_levels in
  let service := mkService (database_sink "db" sample_page) in
  let w := world_with (entry_with_ts LogLevel.info 42) in
  (∃ e, MultiLoggingConnector_log multi no_tenant 1%positive w = (w, Rejected e)
        ∧ is_validation_error e = true)
  ∧ (∃ e, LoggingService_log service no_tenant 1%positive w = (w, Rejected e)
          ∧ is_validation_error e = true)
  ∧ (∃ e, LoggingService_query service no_tenant (Some LogLevel.error) None
            None None None None w = (w, Rejected e)
          ∧ is_validation_error e = true).
Proof.
  destruct (tenant_guard_precedes_connector_calls
              (mkService (database_sink "db" sample_page))
              (mkMulti [database_sink "db" sample_page] all_levels)
              no_tenant 1%positive (Some LogLevel.error) None None None None None
              (world_with (entry_with_ts LogLevel.info 42)))
    as [Hmulti Hservice].
  - reflexivity.
  - split; [exact Hmulti | apply Hservice; reflexivity].
Defined.

(** An empty tenant id stops the multiplexer's [log] as well. *)
Example empty_tenant_stops_multi_log :
  let multi := mkMulti [memory_sink "A"] all_levels in
  let w := world_with (entry_without_ts LogLevel.info) in
  MultiLoggingConnector_log multi (tenant "") 1%positive w =
  (w, Rejected (GuardError.new "MultiLoggingConnector" "guard.stringEmpty"
                  "requestContext.tenantId" (JsString ""))).
Proof. reflexivity. Qed.

(** * Further properties of the code *)

(** ** The constructor of the multiplexer *)

Section ConstructorProperties.
Context {Store : Type}.
Implicit Types (get : string -> Outcome (ILoggingConnector Store))
  (multi : MultiLoggingConnector Store) (w : World Store).

Lemma resolve_all_rejected get pre t post e :
  Forall (fun t' => ∃ c, get t' = Fulfilled c) pre ->
  get t = Rejected e ->
  resolve_all get (pre ++ t :: post) = Rejected e.
Proof.
  intros Hpre Ht. induction Hpre as [|t' pre [c Hc] _ IH]; simpl.
  - by rewrite Ht.
  - by rewrite Hc, IH.
Qed.

Lemma MultiLoggingConnector_new_fulfilled get options multi :
  MultiLoggingConnector_new get options = Fulfilled multi ->
  loggingConnectorTypes options ≠ []
  ∧ resolve_all get (loggingConnectorTypes options)
    = Fulfilled (_loggingConnectors multi)
  ∧ _levels multi =
    match config options with
    | Some (mkLevelsConfig (Some ls)) => ls
    | _ => all_levels
    end.
Proof.
  unfold MultiLoggingConnector_new.
  cbv [Guards.object Is.undefined Is.object negb].
  destruct (loggingConnectorTypes options) as [|t types]; [discriminate|].
  destruct (resolve_all get (t :: types)) as [cs|e]; [|discriminate].
  intros Hnew. injection Hnew as <-. simpl.
  split; [discriminate|]. split; [reflexivity|].
  destruct (config options) as [[[ls|]]|]; reflexivity.
Qed.

(** X1: a multiplexer that was constructed holds, for each type name and in
    the order of the names, the instance the registry gave for it; there is
    at least one, and as many as there are names. *)
Theorem constructor_resolves_types_in_order get options multi :
  MultiLoggingConnector_new get options = Fulfilled multi ->
  map get (loggingConnectorTypes options) = map Fulfilled (_loggingConnectors multi)
  ∧ length (_loggingConnectors multi) = length (loggingConnectorTypes options)
  ∧ _loggingConnectors multi ≠ [].
Proof.
  intros Hnew.
  pose proof (MultiLoggingConnector_new_order _ _ _ Hnew) as Hmap.
  destruct (MultiLoggingConnector_new_fulfilled _ _ _ Hnew) as (Hne & _ & _).
  assert (length (_loggingConnectors multi) = length (loggingConnectorTypes options))
    as Hlen.
  { pose proof (f_equal length Hmap) as Hl. by rewrite !length_map in Hl. }
  split; [exact Hmap|]. split; [exact Hlen|].
  intros Hnil. rewrite Hnil in Hlen. simpl in Hlen.
  destruct (loggingConnectorTypes options); [by apply Hne | discriminate].
Qed.

(** X2: the constructor rejects an empty list of type names with a
    validation error, whatever the registry and the configuration. *)
Theorem constructor_rejects_no_types get config :
  ∃ e, MultiLoggingConnector_new get (mkMultiOptions [] config) = Rejected e
       ∧ is_validation_error e = true.
Proof. eexists. split; reflexivity. Qed.

(** X3: when the registry fails for a type name and has an instance for
    every name before it, the construction fails with the registry's error. *)
Theorem constructor_fails_with_first_lookup_error get options pre t post e :
  loggingConnectorTypes options = pre ++ t :: post ->
  Forall (fun t' => ∃ c, get t' = Fulfilled c) pre ->
  get t = Rejected e ->
  MultiLoggingConnector_new get options = Rejected e.
Proof.
  intros Htypes Hpre Ht.
  pose proof (resolve_all_rejected get pre t post e Hpre Ht) as Hres.
  rewrite <- Htypes in Hres. unfold MultiLoggingConnector_new.
  cbv [Guards.object Is.undefined Is.object negb].
  destruct (loggingConnectorTypes options) as [|t0 types].
  - by destruct pre.
  - by rewrite Hres.
Qed.

(** X4: a multiplexer constructed without a list of levels, be it without a
    configuration or with one that leaves the levels out, drops no entry:
    [log] from a valid context calls every sub-connector, whatever the
    level. *)
Theorem constructed_without_levels_forwards_every_level get types config multi
    requestContext logEntry entry w :
  config = None ∨ config = Some (mkLevelsConfig None) ->
  MultiLoggingConnector_new get (mkMultiOptions types config) = Fulfilled multi ->
  non_empty_string (of_string (tenantId requestContext)) = true ->
  heap (env w) !! logEntry = Some entry ->
  MultiLoggingConnector_log multi requestContext logEntry w =
  (mkWorld
     (env_after_logs requestContext logEntry (_loggingConnectors multi)
        (stamp logEntry (env w)))
     (calls w ++ log_calls requestContext logEntry 0 (length types)),
   Fulfilled tt).
Proof.
  intros Hconfig Hnew Hctx Hentry.
  destruct (MultiLoggingConnector_new_fulfilled _ _ _ Hnew) as (_ & Hres & Hlevels).
  pose proof (MultiLoggingConnector_new_order _ _ _ Hnew) as Hmap.
  simpl in Hlevels, Hmap.
  assert (length (_loggingConnectors multi) = length types) as Hlen.
  { pose proof (f_equal length Hmap) as Hl. by rewrite !length_map in Hl. }
  rewrite (MultiLoggingConnector_log_enabled _ _ _ entry), Hlen; try done.
  rewrite Hlevels.
  destruct Hconfig as [-> | ->]; unfold all_levels; destruct (level entry); set_solver.
Qed.

(** X5: a configured list of levels is kept as it is, the empty list too: a
    multiplexer constructed with no level enabled drops every entry, and
    [log] from a valid context returns without calling a sub-connector. *)
Theorem constructed_with_no_level_drops_everything get types multi
    requestContext logEntry entry w :
  MultiLoggingConnector_new get
    (mkMultiOptions types (Some (mkLevelsConfig (Some [])))) = Fulfilled multi ->
  non_empty_string (of_string (tenantId requestContext)) = true ->
  heap (env w) !! logEntry = Some entry ->
  _levels multi = []
  ∧ MultiLoggingConnector_log multi requestContext logEntry w = (w, Fulfilled tt).
Proof.
  intros Hnew Hctx Hentry.
  destruct (MultiLoggingConnector_new_fulfilled _ _ _ Hnew) as (_ & _ & Hlevels).
  simpl in Hlevels. split; [exact Hlevels|].
  apply (MultiLoggingConnector_log_disabled _ _ _ entry); try done.
  rewrite Hlevels. apply not_elem_of_nil.
Qed.
End ConstructorProperties.

(** ** More on the fan-out of [log] *)

Section MultiLogFurther.
Context {Store : Type}.
Implicit Types (this : MultiLoggingConnector Store) (w : World Store)
  (connectors : list (ILoggingConnector Store)).

(** A reference that does not resolve to an object stops [log] at the guard
    on the entry. *)
Lemma MultiLoggingConnector_log_unresolved this requestContext logEntry w :
  non_empty_string (of_string (tenantId requestContext)) = true ->
  heap (env w) !! logEntry = None ->
  MultiLoggingConnector_log this requestContext logEntry w =
  (w, Rejected (GuardError.new MultiLoggingConnector_CLASS_NAME
                  "guard.objectUndefined" "logEntry" (JsString "undefined"))).
Proof.
  intros Hctx Hentry.
  unfold MultiLoggingConnector_log, bind, guard, value_of.
  unfold Guards.object, Guards.stringValue.
  assert (Is.string (of_string (tenantId requestContext)) = true) as Hstr.
  { destruct (tenantId requestContext); [reflexivity | discriminate]. }
  rewrite Hstr, Hctx, Hentry. reflexivity.
Qed.

Lemma MultiLoggingConnector_log_keeps_ts this requestContext logEntry t w :
  ts_at logEntry (env w) = Some (Some t) ->
  Forall keeps_timestamp (_loggingConnectors this) ->
  ts_at logEntry (env (MultiLoggingConnector_log this requestContext logEntry w).1)
  = Some (Some t).
Proof.
  intros Hbefore Hkeep.
  destruct (heap (env w) !! logEntry) as [entry|] eqn:Hentry.
  2:{ unfold ts_at in Hbefore. by rewrite Hentry in Hbefore. }
  assert (ts entry = Some t) as Hts.
  { unfold ts_at in Hbefore. rewrite Hentry in Hbefore. by injection Hbefore. }
  destruct (non_empty_string (of_string (tenantId requestContext))) eqn:Hctx.
  - destruct (decide (level entry ∈ _levels this)) as [Hin|Hout].
    + rewrite (MultiLoggingConnector_log_enabled _ _ _ entry) by assumption.
      simpl. rewrite (stamp_present _ _ _ _ Hentry Hts).
      by apply env_after_logs_keeps_timestamp.
    + by rewrite (MultiLoggingConnector_log_disabled _ _ _ entry).
  - by destruct (MultiLoggingConnector_log_guarded this _ logEntry w Hctx)
      as (e & -> & _).
Qed.

Lemma env_after_logs_leaves_heap requestContext l connectors (e : Env Store) :
  Forall leaves_heap connectors ->
  heap (env_after_logs requestContext l connectors e) = heap e.
Proof.
  intros Hleave. revert e.
  induction Hleave as [|c cs Hc _ IH]; intros e; [reflexivity|].
  unfold env_after_logs. simpl. etrans; [apply IH | apply Hc].
Qed.

(** X6: handed a reference that is not an object, [log] throws a validation
    error and does nothing else. *)
Theorem log_rejects_entry_that_is_no_object this requestContext logEntry w :
  non_empty_string (of_string (tenantId requestContext)) = true ->
  heap (env w) !! logEntry = None ->
  ∃ e, MultiLoggingConnector_log this requestContext logEntry w = (w, Rejected e)
       ∧ is_validation_error e = true.
Proof.
  intros Hctx Hentry. eexists. split.
  - by apply MultiLoggingConnector_log_unresolved.
  - reflexivity.
Qed.

(** X7: [log] surfaces no error of a sub-connector.  Whenever it throws it
    has called no sub-connector and has changed nothing; put the other way
    round, once a sub-connector has been called [log] returns normally,
    whatever the sub-connectors settle to. *)
Theorem log_throws_before_any_call this requestContext logEntry w e :
  (MultiLoggingConnector_log this requestContext logEntry w).2 = Rejected e ->
  (MultiLoggingConnector_log this requestContext logEntry w).1 = w.
Proof.
  destruct (non_empty_string (of_string (tenantId requestContext))) eqn:Hctx.
  - destruct (heap (env w) !! logEntry) as [entry|] eqn:Hentry.
    + destruct (decide (level entry ∈ _levels this)) as [Hin|Hout].
      * by rewrite (MultiLoggingConnector_log_enabled _ _ _ entry).
      * by rewrite (MultiLoggingConnector_log_disabled _ _ _ entry).
    + by rewrite MultiLoggingConnector_log_unresolved.
  - by destruct (MultiLoggingConnector_log_guarded this _ logEntry w Hctx)
      as (e' & -> & _).
Qed.

(** X8: of the objects on the heap [log] itself changes one field of one
    object: the timestamp of the entry, and only when it is missing.  With
    sinks that write to no object, the heap after [log] is the heap before
    with the entry's missing timestamp filled in from the clock. *)
Theorem log_writes_only_a_missing_timestamp this requestContext logEntry entry w :
  non_empty_string (of_string (tenantId requestContext)) = true ->
  heap (env w) !! logEntry = Some entry ->
  level entry ∈ _levels this ->
  Forall leaves_heap (_loggingConnectors this) ->
  heap (env (MultiLoggingConnector_log this requestContext logEntry w).1) =
  <[logEntry :=
      mkLogEntry (level entry) (source entry)
        (Some (default (Num (clock (env w))) (ts entry)))
        (message entry) (error entry) (data entry)]> (heap (env w)).
Proof.
  intros Hctx Hentry Hlevel Hleave.
  rewrite (MultiLoggingConnector_log_enabled _ _ _ entry) by assumption.
  simpl. rewrite env_after_logs_leaves_heap by assumption.
  unfold stamp. rewrite Hentry.
  destruct entry as [lv src [t|] msg err dat]; simpl in *.
  - symmetry. by apply insert_id.
  - reflexivity.
Qed.

(** X9: an entry logged twice keeps the timestamp of the first time.  After
    a first multiplexer has stamped it, a second [log], through the same or
    another multiplexer and from any context, leaves that timestamp, however
    far the sinks have moved the clock in between. *)
Theorem second_log_keeps_first_timestamp (first second : MultiLoggingConnector Store)
    requestContext requestContext' logEntry entry w :
  non_empty_string (of_string (tenantId requestContext)) = true ->
  heap (env w) !! logEntry = Some entry ->
  ts entry = None ->
  level entry ∈ _levels first ->
  Forall keeps_timestamp (_loggingConnectors first) ->
  Forall keeps_timestamp (_loggingConnectors second) ->
  let w1 := (MultiLoggingConnector_log first requestContext logEntry w).1 in
  let w2 := (MultiLoggingConnector_log second requestContext' logEntry w1).1 in
  ts_at logEntry (env w2) = Some (Some (Num (clock (env w)))).
Proof.
  intros Hctx Hentry Hts Hlevel Hkeep1 Hkeep2. simpl.
  apply MultiLoggingConnector_log_keeps_ts; [|exact Hkeep2].
  rewrite (MultiLoggingConnector_log_enabled _ _ _ entry) by assumption.
  simpl. apply env_after_logs_keeps_timestamp; [exact Hkeep1|].
  by apply (ts_at_stamp_missing _ _ entry).
Qed.

(** X10: a multiplexer honours the contract it relies on in its sinks: when
    each of its sub-connectors leaves a set timestamp in place, so does the
    multiplexer used as a connector, which lets multiplexers be nested. *)
Theorem multiplexer_as_connector_keeps_timestamp this :
  Forall keeps_timestamp (_loggingConnectors this) ->
  keeps_timestamp (MultiLoggingConnector_connector this).
Proof.
  intros Hkeep requestContext l e t Hts.
  unfold MultiLoggingConnector_connector. cbn [log].
  pose proof (MultiLoggingConnector_log_keeps_ts this requestContext l t
                (mkWorld e []) Hts Hkeep) as Hafter.
  by destruct (MultiLoggingConnector_log this requestContext l (mkWorld e []))
    as [w' r].
Qed.
End MultiLogFurther.

(** ** More on probing for [query] *)

Section MultiQueryFurther.
Context {Store : Type}.
Variables (requestContext : IRequestContext)
  (conditions : option EntityCondition)
  (sortProperties : option (list SortProperty))
  (properties : option (list string))
  (cursor : option string) (pageSize : option number).
Implicit Types (this : MultiLoggingConnector Store) (w : World Store)
  (connectors : list (ILoggingConnector Store)).

Local Abbreviation query_of c :=
  (query c requestContext conditions sortProperties properties cursor pageSize).
Local Abbreviation loop_from first connectors :=
  (query_from first connectors requestContext conditions sortProperties
     properties cursor pageSize).
Local Abbreviation probed first n :=
  (query_calls requestContext conditions sortProperties properties cursor
     pageSize first n).
Local Abbreviation after connectors e :=
  (env_after_queries requestContext conditions sortProperties properties
     cursor pageSize connectors e).
Local Abbreviation unsupported_all connectors e :=
  (all_unsupported requestContext conditions sortProperties properties
     cursor pageSize connectors e).
Local Abbreviation own_error :=
  (NotImplementedError.new MultiLoggingConnector_CLASS_NAME "query").

(** The loop either runs out of sinks, all of them unsupported, or stops at
    the first sink that answers, with that sink's outcome. *)
Lemma query_from_cases first connectors w :
  (unsupported_all connectors (env w) = true
   ∧ loop_from first connectors w =
     (mkWorld (after connectors (env w))
              (calls w ++ probed first (length connectors)),
      Rejected own_error))
  ∨ (∃ pre c post e' o,
       connectors = pre ++ c :: post
       ∧ unsupported_all pre (env w) = true
       ∧ query_of c (after pre (env w)) = (e', o)
       ∧ answers o = true
       ∧ loop_from first connectors w =
         (mkWorld e' (calls w ++ probed first (S (length pre))), o)).
Proof.
  revert first w. induction connectors as [|c cs IH]; intros first w.
  - left. split; [reflexivity|]. destruct w as [e cl]. unfold query_calls.
    simpl. by rewrite app_nil_r.
  - destruct (query_of c (env w)) as [e1 o] eqn:Hq.
    destruct (answers o) eqn:Ho.
    + right. exists [], c, cs, e1, o. repeat split; try done.
      destruct o as [r|err]; simpl in Ho.
      * by apply query_from_fulfilled.
      * apply query_from_rejected; [exact Hq|]. by destruct (is_not_implemented err).
    + destruct o as [r|err]; [discriminate|]. simpl in Ho.
      apply negb_false_iff in Ho.
      assert (unsupported requestContext conditions sortProperties properties
                cursor pageSize c (env w) = true) as Hc.
      { unfold unsupported. by rewrite Hq. }
      assert (after [c] (env w) = e1) as He1.
      { unfold env_after_queries. simpl. by rewrite Hq. }
      rewrite query_from_unsupported by exact Hc. rewrite He1.
      destruct (IH (S first) (mkWorld e1 (calls w ++ probed first 1)))
        as [[Hall Hrun] | (pre & c' & post & e' & o & -> & Hpre & Hc' & Ho' & Hrun)].
      * left. simpl in Hall, Hrun. split.
        { cbn [all_unsupported]. by rewrite Hc, He1. }
        rewrite Hrun. unfold env_after_queries, query_calls. simpl.
        rewrite Hq. simpl. by rewrite <- app_assoc.
      * right. exists (c :: pre), c', post, e', o. simpl in Hpre, Hc', Hrun.
        repeat split; try done.
        { cbn [all_unsupported]. by rewrite Hc, He1. }
        { unfold env_after_queries in *. simpl. by rewrite Hq. }
        rewrite Hrun. unfold query_calls. simpl. by rewrite <- app_assoc.
Qed.

(** X11: first responder wins, at any position: when the sinks before a
    sub-connector all fail with not-implemented and it answers with a page,
    [query] returns that page unchanged; the sinks up to it have been
    queried once each, in order, and those after it not at all. *)
Theorem query_returns_first_page_at_any_position this pre c post w e' result :
  _loggingConnectors this = pre ++ c :: post ->
  unsupported_all pre (env w) = true ->
  query_of c (after pre (env w)) = (e', Fulfilled result) ->
  MultiLoggingConnector_query this requestContext conditions sortProperties
    properties cursor pageSize w =
  (mkWorld e' (calls w ++ probed 0 (S (length pre))), Fulfilled result).
Proof.
  intros Hcs Hpre Hc. unfold MultiLoggingConnector_query. rewrite Hcs.
  rewrite query_from_skips by exact Hpre.
  rewrite (query_from_fulfilled _ _ _ _ _ _ _ _ _ _ e' result) by assumption.
  simpl. unfold query_calls.
  by rewrite (seq_S (length pre) 0), map_app, app_assoc.
Qed.

(** X12: whatever the sinks do, [query] queries an initial run of them: the
    first [k] sub-connectors once each in construction order, none twice,
    none out of turn, and at least one when there is one; it touches the
    environment through these calls only. *)
Theorem query_probes_an_initial_run this w :
  let w' := (MultiLoggingConnector_query this requestContext conditions
               sortProperties properties cursor pageSize w).1 in
  ∃ k, (k <= length (_loggingConnectors this))%nat
       ∧ (_loggingConnectors this ≠ [] -> (1 <= k)%nat)
       ∧ calls w' = calls w ++ probed 0 k
       ∧ env w' = after (take k (_loggingConnectors this)) (env w).
Proof.
  simpl. unfold MultiLoggingConnector_query.
  destruct (query_from_cases 0 (_loggingConnectors this) w)
    as [[_ Hrun] | (pre & c & post & e' & o & Hcs & _ & Hc & _ & Hrun)];
    rewrite Hrun; simpl.
  - exists (length (_loggingConnectors this)). rewrite firstn_all.
    repeat split; try done.
    destruct (_loggingConnectors this); [done | simpl; lia].
  - exists (S (length pre)). rewrite Hcs, length_app. simpl.
    repeat split; try lia.
    replace (S (length pre)) with (length (pre ++ [c])) by (rewrite length_app; simpl; lia).
    rewrite (cons_middle c pre post), app_assoc, take_app_length.
    unfold env_after_queries in *. rewrite fold_left_app. simpl. by rewrite Hc.
Qed.

(** X13: [query] makes up no answer.  When it settles to a page, or to an
    error other than not-implemented, a sub-connector settled to exactly
    that, and it is the first one that did not fail with not-implemented. *)
Theorem query_answer_comes_from_first_answering_sink this w :
  let run := MultiLoggingConnector_query this requestContext conditions
               sortProperties properties cursor pageSize w in
  answers run.2 = true ->
  ∃ pre c post,
    _loggingConnectors this = pre ++ c :: post
    ∧ unsupported_all pre (env w) = true
    ∧ query_of c (after pre (env w)) = (env run.1, run.2).
Proof.
  simpl. unfold MultiLoggingConnector_query.
  destruct (query_from_cases 0 (_loggingConnectors this) w)
    as [[_ Hrun] | (pre & c & post & e' & o & Hcs & Hpre & Hc & _ & Hrun)];
    rewrite Hrun; simpl.
  - discriminate.
  - intros _. by exists pre, c, post.
Qed.

(** X14: the not-implemented error that [query] throws is always its own:
    when [query] fails with the not-implemented kind, every sub-connector
    has been queried and has failed with not-implemented, and the error
    names the multiplexer. *)
Theorem query_not_implemented_only_when_none_supports this w err :
  (MultiLoggingConnector_query this requestContext conditions sortProperties
     properties cursor pageSize w).2 = Rejected err ->
  is_not_implemented err = true ->
  err = NotImplementedError.new "MultiLoggingConnector" "query"
  ∧ unsupported_all (_loggingConnectors this) (env w) = true
  ∧ calls (MultiLoggingConnector_query this requestContext conditions
             sortProperties properties cursor pageSize w).1 =
    calls w ++ probed 0 (length (_loggingConnectors this)).
Proof.
  unfold MultiLoggingConnector_query.
  destruct (query_from_cases 0 (_loggingConnectors this) w)
    as [[Hall Hrun] | (pre & c & post & e' & o & Hcs & Hpre & Hc & Ho & Hrun)];
    rewrite Hrun; simpl.
  - intros Herr _. injection Herr as <-. by repeat split.
  - intros -> Herr. simpl in Ho. by rewrite Herr in Ho.
Qed.
End MultiQueryFurther.

(** ** Nested multiplexers *)

Section NestedQuery.
Context {Store : Type}.
Variables (requestContext : IRequestContext)
  (conditions : option EntityCondition)
  (sortProperties : option (list SortProperty))
  (properties : option (list string))
  (cursor : option string) (pageSize : option number).
Implicit Types (w : World Store) (connectors : list (ILoggingConnector Store)).

Local Abbreviation query_of c :=
  (query c requestContext conditions sortProperties properties cursor pageSize).
Local Abbreviation loop_from first connectors :=
  (query_from first connectors requestContext conditions sortProperties
     properties cursor pageSize).

(** What the loop leaves and settles to depends on the environment it starts
    in, not on the calls recorded so far nor on the position it counts from. *)
Lemma query_from_observed_frame first first' connectors w w' :
  env w' = env w ->
  observed (loop_from first connectors w) = observed (loop_from first' connectors w').
Proof.
  revert first first' w w'.
  induction connectors as [|c cs IH]; intros first first' w w' Henv.
  - unfold observed. simpl. by rewrite Henv.
  - simpl. unfold try_catch, bind, call_query, ret, throw. rewrite Henv.
    destruct (query_of c (env w)) as [e1 [r|err]]; [reflexivity|].
    destruct (BaseError.isErrorName err NotImplementedError.CLASS_NAME);
      simpl; [|reflexivity].
    by apply IH.
Qed.

Lemma query_from_app_observed first first' first'' recorded inner rest w w' :
  env w' = env w ->
  observed (loop_from first (inner ++ rest) w) =
  match loop_from first' inner w' with
  | (w1, Fulfilled r) => (env w1, Fulfilled r)
  | (w1, Rejected err) =>
      if is_not_implemented err
      then observed (loop_from first'' rest (mkWorld (env w1) recorded))
      else (env w1, Rejected err)
  end.
Proof.
  revert first first' w w'.
  induction inner as [|c cs IH]; intros first first' w w' Henv.
  - simpl. unfold throw. simpl. by apply query_from_observed_frame.
  - simpl. unfold try_catch, bind, call_query, ret, throw. rewrite Henv.
    destruct (query_of c (env w)) as [e1 [r|err]]; [reflexivity|].
    unfold is_not_implemented.
    destruct (BaseError.isErrorName err NotImplementedError.CLASS_NAME) eqn:Herr;
      simpl.
    + by apply IH.
    + by rewrite Herr.
Qed.

(** X15: for [query] a nested multiplexer can be flattened.  A multiplexer
    whose first sub-connector is itself a multiplexer over [inner] leaves the
    same environment and settles to the same page or error as a multiplexer
    over [inner] followed by the remaining sub-connectors, whatever the
    levels of either. *)
Theorem nested_query_flattens inner inner_levels rest outer_levels w :
  observed
    (MultiLoggingConnector_query
       (mkMulti (MultiLoggingConnector_connector (mkMulti inner inner_levels) :: rest)
                outer_levels)
       requestContext conditions sortProperties properties cursor pageSize w) =
  observed
    (MultiLoggingConnector_query (mkMulti (inner ++ rest) outer_levels)
       requestContext conditions sortProperties properties cursor pageSize w).
Proof.
  unfold MultiLoggingConnector_query. cbn [_loggingConnectors].
  rewrite (query_from_app_observed 0 0 1
             (calls w ++ [CallQuery (Sub 0) requestContext conditions
                            sortProperties properties cursor pageSize])
             inner rest w (mkWorld (env w) [])) by reflexivity.
  cbn [query_from]. unfold try_catch, bind, call_query, ret, throw.
  cbn [query MultiLoggingConnector_connector].
  unfold MultiLoggingConnector_query. cbn [_loggingConnectors].
  destruct (loop_from 0 inner (mkWorld (env w) [])) as [w1 [r|err]];
    [reflexivity|].
  unfold is_not_implemented.
  by destruct (BaseError.isErrorName err NotImplementedError.CLASS_NAME).
Qed.
End NestedQuery.

(** ** More on the service *)

Lemma LogLevel_to_string_inj l l' :
  LogLevel.to_string l = LogLevel.to_string l' -> l = l'.
Proof. destruct l, l'; simpl; intros H; try reflexivity; discriminate H. Qed.

Lemma clauses_per_supplied_inj level level' source source' timeStart timeStart'
    timeEnd timeEnd' :
  clauses_per_supplied level source timeStart timeEnd =
  clauses_per_supplied level' source' timeStart' timeEnd' ->
  level = level' ∧ source = source' ∧ timeStart = timeStart' ∧ timeEnd = timeEnd'.
Proof.
  destruct level as [l|], level' as [l'|], source as [s|], source' as [s'|],
    timeStart as [a|], timeStart' as [a'|], timeEnd as [b|], timeEnd' as [b'|];
    simpl; intros H; try discriminate H; simplify_eq;
    repeat split; try done; f_equal; by apply LogLevel_to_string_inj.
Qed.

(** X16: the filter determines the parameters it was built from: two calls
    of [query] build the same condition only when they agree on the level,
    on the source and on both times, a source of white space only and a
    time that is [NaN] or infinite counting as left out. *)
Theorem build_condition_determines_parameters level level' source source'
    timeStart timeStart' timeEnd timeEnd' :
  build_condition level source timeStart timeEnd =
  build_condition level' source' timeStart' timeEnd' ->
  level = level'
  ∧ usable_source source = usable_source source'
  ∧ usable_time timeStart = usable_time timeStart'
  ∧ usable_time timeEnd = usable_time timeEnd'.
Proof.
  rewrite !build_condition_usable. intros H. injection H as H.
  by apply clauses_per_supplied_inj.
Qed.

Section ServiceFurther.
Context {Store : Type}.
Implicit Types (service : LoggingService Store) (w : World Store).

(** [log] of the service once its guards have passed. *)
Lemma LoggingService_log_run service requestContext logEntry tenantId' entry w :
  tenantId requestContext = Some tenantId' ->
  heap (env w) !! logEntry = Some entry ->
  LoggingService_log service requestContext logEntry w =
  (mkWorld (log (logging service) requestContext logEntry (env w)).1
           (calls w ++ [CallLog Logging requestContext logEntry]),
   (log (logging service) requestContext logEntry (env w)).2).
Proof.
  intros Hctx Hentry.
  unfold LoggingService_log, bind, guard, value_of, ret, call_log.
  unfold Guards.object, Guards.string. rewrite Hctx, Hentry. simpl.
  by destruct (log _ _ _ _) as [e' [id|err]].
Qed.

(** X17: [LoggingService.log] adds nothing of its own.  Given a tenant id
    that is a string and an entry that is an object, it calls its connector
    once and hands back what the connector settled to, an identifier, nothing
    or an error, leaving the environment as the connector left it; it does
    not stamp the entry. *)
Theorem service_log_delegates service requestContext logEntry tenantId' entry w :
  tenantId requestContext = Some tenantId' ->
  heap (env w) !! logEntry = Some entry ->
  LoggingService_log service requestContext logEntry w =
  (mkWorld (log (logging service) requestContext logEntry (env w)).1
           (calls w ++ [CallLog Logging requestContext logEntry]),
   (log (logging service) requestContext logEntry (env w)).2).
Proof. apply LoggingService_log_run. Qed.

(** X18: handed a reference that is not an object, [LoggingService.log]
    throws a validation error before it calls the connector. *)
Theorem service_log_rejects_entry_that_is_no_object service requestContext
    logEntry tenantId' w :
  tenantId requestContext = Some tenantId' ->
  heap (env w) !! logEntry = None ->
  ∃ e, LoggingService_log service requestContext logEntry w = (w, Rejected e)
       ∧ is_validation_error e = true.
Proof.
  intros Hctx Hentry.
  unfold LoggingService_log, bind, guard, value_of.
  unfold Guards.object, Guards.string. rewrite Hctx, Hentry. simpl.
  eexists. split; reflexivity.
Qed.

(** X19: [LoggingService.query] hands back the connector's page with its
    entities, cursor, page size and total as they came, and the connector's
    error, the not-implemented one included, when it fails; cursor and page
    size go to the connector as given. *)
Theorem service_query_returns_connector_outcome service requestContext
    tenantId' level source timeStart timeEnd cursor pageSize w :
  tenantId requestContext = Some tenantId' ->
  let answer :=
    query (logging service) requestContext
      (Some (build_condition level source timeStart timeEnd))
      (Some [mkSort "ts" Descending]) None cursor pageSize (env w) in
  LoggingService_query service requestContext level source timeStart timeEnd
    cursor pageSize w =
  (mkWorld answer.1
     (calls w ++ [CallQuery Logging requestContext
                    (Some (build_condition level source timeStart timeEnd))
                    (Some [mkSort "ts" Descending]) None cursor pageSize]),
   answer.2).
Proof.
  intros Hctx. simpl. rewrite LoggingService_query_run, Hctx. simpl.
  unfold call_query. by destruct (query _ _ _ _ _ _ _ _) as [e' r].
Qed.

(** X20: the guards of the two layers differ, and both run.  A service in
    front of a multiplexer lets an empty tenant id through its own guard and
    calls the multiplexer, whose guard then throws the validation error; no
    sub-connector is reached and the environment is unchanged. *)
Theorem service_over_multiplexer_rejects_empty_tenant
    (multi : MultiLoggingConnector Store) requestContext logEntry entry w :
  tenantId requestContext = Some "" ->
  heap (env w) !! logEntry = Some entry ->
  ∃ e,
    LoggingService_log (mkService (MultiLoggingConnector_connector multi))
      requestContext logEntry w =
    (mkWorld (env w) (calls w ++ [CallLog Logging requestContext logEntry]),
     Rejected e)
    ∧ is_validation_error e = true
    ∧ BaseError.source e = "MultiLoggingConnector".
Proof.
  intros Hctx Hentry.
  unfold LoggingService_log, bind, guard, value_of, ret, call_log.
  unfold Guards.object, Guards.string. rewrite Hctx, Hentry. simpl.
  unfold MultiLoggingConnector_log, bind, guard.
  unfold Guards.object, Guards.stringValue. rewrite Hctx. simpl.
  eexists. repeat split; reflexivity.
Qed.

(** X21: through a multiplexer the service's [log] returns no identifier and
    no sink's failure: for a non-empty tenant id and an entry of an enabled
    level it resolves to nothing, one call to the connector is recorded, and
    the environment is the one the stamped entry and the sinks, each in its
    turn, produce. *)
Theorem service_over_multiplexer_logs (multi : MultiLoggingConnector Store)
    requestContext logEntry entry w :
  non_empty_string (of_string (tenantId requestContext)) = true ->
  heap (env w) !! logEntry = Some entry ->
  level entry ∈ _levels multi ->
  LoggingService_log (mkService (MultiLoggingConnector_connector multi))
    requestContext logEntry w =
  (mkWorld
     (env_after_logs requestContext logEntry (_loggingConnectors multi)
        (stamp logEntry (env w)))
     (calls w ++ [CallLog Logging requestContext logEntry]),
   Fulfilled None).
Proof.
  intros Hctx Hentry Hlevel.
  destruct (tenantId requestContext) as [t|] eqn:Ht; [|discriminate].
  rewrite (LoggingService_log_run _ _ _ t entry) by done.
  cbn [log logging MultiLoggingConnector_connector].
  rewrite (MultiLoggingConnector_log_enabled _ _ _ entry); try done.
  by rewrite Ht.
Qed.
End ServiceFurther.

(** * The further properties at work on the sample sinks *)

Lemma memory_sink_leaves_heap name : leaves_heap (memory_sink name).
Proof.
  intros requestContext l e. cbn [log memory_sink].
  by destruct (heap e !! l).
Qed.

Lemma broken_sink_leaves_heap name : leaves_heap (broken_sink name).
Proof. intros requestContext l e. reflexivity. Qed.

Lemma constructor_resolves_types_in_order_witness :
  let multi := mkMulti [memory_sink "console"; database_sink "db" sample_page]
                 all_levels in
  map sample_registry ["console"; "db"] = map Fulfilled (_loggingConnectors multi)
  ∧ length (_loggingConnectors multi) = 2%nat
  ∧ _loggingConnectors multi ≠ [].
Proof.
  apply (constructor_resolves_types_in_order sample_registry
           (mkMultiOptions ["console"; "db"] None)
           (mkMulti [memory_sink "console"; database_sink "db" sample_page]
                    all_levels)).
  reflexivity.
Defined.

Lemma constructor_fails_with_first_lookup_error_witness :
  MultiLoggingConnector_new sample_registry
    (mkMultiOptions ["console"; "kafka"; "db"] None) =
  Rejected (general_error "LoggingConnectorFactory").
Proof.
  apply (constructor_fails_with_first_lookup_error sample_registry
           (mkMultiOptions ["console"; "kafka"; "db"] None)
           ["console"] "kafka" ["db"]).
  - reflexivity.
  - repeat constructor. by exists (memory_sink "console").
  - reflexivity.
Defined.

Lemma constructed_without_levels_forwards_every_level_witness :
  let multi := mkMulti [memory_sink "console"; database_sink "db" sample_page]
                 all_levels in
  let w := world_with (entry_without_ts LogLevel.trace) in
  MultiLoggingConnector_log multi (tenant "t1") 1%positive w =
  (mkWorld
     (env_after_logs (tenant "t1") 1%positive (_loggingConnectors multi)
        (stamp 1%positive (env w)))
     (calls w ++ log_calls (tenant "t1") 1%positive 0 2),
   Fulfilled tt).
Proof.
  apply (constructed_without_levels_forwards_every_level sample_registry
           ["console"; "db"] (Some (mkLevelsConfig None))
           (mkMulti [memory_sink "console"; database_sink "db" sample_page]
                    all_levels)
           (tenant "t1") 1%positive (entry_without_ts LogLevel.trace)).
  - by right.
  - reflexivity.
  - reflexivity.
  - reflexivity.
Defined.

Lemma constructed_with_no_level_drops_everything_witness :
  let multi := mkMulti [memory_sink "console"] [] in
  let w := world_with (entry_without_ts LogLevel.error) in
  _levels multi = []
  ∧ MultiLoggingConnector_log multi (tenant "t1") 1%positive w = (w, Fulfilled tt).
Proof.
  apply (constructed_with_no_level_drops_everything sample_registry ["console"]
           (mkMulti [memory_sink "console"] []) (tenant "t1") 1%positive
           (entry_without_ts LogLevel.error)).
  - reflexivity.
  - reflexivity.
  - reflexivity.
Defined.

Lemma log_rejects_entry_that_is_no_object_witness :
  ∃ e, MultiLoggingConnector_log (mkMulti [memory_sink "A"] all_levels)
         (tenant "t1") 1%positive empty_world = (empty_world, Rejected e)
       ∧ is_validation_error e = true.
Proof.
  apply (log_rejects_entry_that_is_no_object
           (mkMulti [memory_sink "A"] all_levels) (tenant "t1") 1%positive
           empty_world).
  - reflexivity.
  - reflexivity.
Defined.

Lemma log_writes_only_a_missing_timestamp_witness :
  let multi := mkMulti [memory_sink "A"; broken_sink "B"] all_levels in
  heap (env (MultiLoggingConnector_log multi (tenant "t1") 1%positive
               (world_with (entry_without_ts LogLevel.info))).1) =
  <[1%positive := mkLogEntry LogLevel.info "auth" (Some (Num 1000)) "hello" None None]>
    {[ 1%positive := entry_without_ts LogLevel.info ]}.
Proof.
  apply (log_writes_only_a_missing_timestamp
           (mkMulti [memory_sink "A"; broken_sink "B"] all_levels)
           (tenant "t1") 1%positive (entry_without_ts LogLevel.info)
           (world_with (entry_without_ts LogLevel.info))).
  - reflexivity.
  - reflexivity.
  - simpl. unfold all_levels. set_solver.
  - constructor; [apply memory_sink_leaves_heap|].
    constructor; [apply broken_sink_leaves_heap|]. constructor.
Defined.

Lemma second_log_keeps_first_timestamp_witness :
  let first := mkMulti [memory_sink "A"] all_levels in
  let second := mkMulti [broken_sink "B"; memory_sink "C"] [LogLevel.info] in
  let w := world_with (entry_without_ts LogLevel.info) in
  let w1 := (MultiLoggingConnector_log first (tenant "t1") 1%positive w).1 in
  let w2 := (MultiLoggingConnector_log second (tenant "t2") 1%positive w1).1 in
  ts_at 1%positive (env w2) = Some (Some (Num 1000)).
Proof.
  apply (second_log_keeps_first_timestamp
           (mkMulti [memory_sink "A"] all_levels)
           (mkMulti [broken_sink "B"; memory_sink "C"] [LogLevel.info])
           (tenant "t1") (tenant "t2") 1%positive
           (entry_without_ts LogLevel.info)
           (world_with (entry_without_ts LogLevel.info))).
  - reflexivity.
  - reflexivity.
  - reflexivity.
  - simpl. unfold all_levels. set_solver.
  - repeat constructor. apply memory_sink_keeps_timestamp.
  - repeat constructor.
    + apply broken_sink_keeps_timestamp.
    + apply memory_sink_keeps_timestamp.
Defined.

Lemma multiplexer_as_connector_keeps_timestamp_witness :
  keeps_timestamp
    (MultiLoggingConnector_connector
       (mkMulti [memory_sink "A"; broken_sink "B"] all_levels)).
Proof.
  apply (multiplexer_as_connector_keeps_timestamp
           (mkMulti [memory_sink "A"; broken_sink "B"] all_levels)).
  repeat constructor.
  - apply memory_sink_keeps_timestamp.
  - apply broken_sink_keeps_timestamp.
Defined.

Lemma query_returns_first_page_at_any_position_witness :
  MultiLoggingConnector_query
    (mkMulti [memory_sink "A"; memory_sink "B"; database_sink "C" sample_page;
              broken_sink "D"] all_levels)
    no_tenant None None None (Some "next") (Some (Num 20)) empty_world =
  (mkWorld (env empty_world)
     [CallQuery (Sub 0) no_tenant None None None (Some "next") (Some (Num 20));
      CallQuery (Sub 1) no_tenant None None None (Some "next") (Some (Num 20));
      CallQuery (Sub 2) no_tenant None None None (Some "next") (Some (Num 20))],
   Fulfilled sample_page).
Proof.
  apply (query_returns_first_page_at_any_position no_tenant None None None
           (Some "next") (Some (Num 20))
           (mkMulti [memory_sink "A"; memory_sink "B";
                     database_sink "C" sample_page; broken_sink "D"] all_levels)
           [memory_sink "A"; memory_sink "B"] (database_sink "C" sample_page)
           [broken_sink "D"] empty_world (env empty_world) sample_page).
  - reflexivity.
  - reflexivity.
  - reflexivity.
Defined.

Lemma query_answer_comes_from_first_answering_sink_witness :
  let this := mkMulti [memory_sink "A"; broken_sink "B";
                       database_sink "C" sample_page] all_levels in
  let run := MultiLoggingConnector_query this (tenant "t1") None None None None
               None empty_world in
  ∃ pre c post,
    _loggingConnectors this = pre ++ c :: post
    ∧ all_unsupported (tenant "t1") None None None None None pre (env empty_world)
      = true
    ∧ query c (tenant "t1") None None None None None
        (env_after_queries (tenant "t1") None None None None None pre
           (env empty_world))
      = (env run.1, run.2).
Proof.
  apply (query_answer_comes_from_first_answering_sink (tenant "t1") None None
           None None None
           (mkMulti [memory_sink "A"; broken_sink "B";
                     database_sink "C" sample_page] all_levels)
           empty_world).
  reflexivity.
Defined.

Lemma query_not_implemented_only_when_none_supports_witness :
  let this := mkMulti [memory_sink "A"; memory_sink "B"] all_levels in
  NotImplementedError.new "MultiLoggingConnector" "query" =
    NotImplementedError.new "MultiLoggingConnector" "query"
  ∧ all_unsupported (tenant "t1") None None None None None
      (_loggingConnectors this) (env empty_world) = true
  ∧ calls (MultiLoggingConnector_query this (tenant "t1") None None None None
             None empty_world).1 =
    calls empty_world ++ query_calls (tenant "t1") None None None None None 0 2.
Proof.
  apply (query_not_implemented_only_when_none_supports (tenant "t1") None None
           None None None (mkMulti [memory_sink "A"; memory_sink "B"] all_levels)
           empty_world).
  - reflexivity.
  - reflexivity.
Defined.

Lemma build_condition_determines_parameters_witness :
  Some LogLevel.error = Some LogLevel.error
  ∧ usable_source (Some " ") = usable_source None
  ∧ usable_time (Some (Num 100)) = usable_time (Some (Num 100))
  ∧ usable_time (Some PosInfinity) = usable_time (Some NaN).
Proof.
  apply (build_condition_determines_parameters (Some LogLevel.error)
           (Some LogLevel.error) (Some " ") None (Some (Num 100)) (Some (Num 100))
           (Some PosInfinity) (Some NaN)).
  reflexivity.
Defined.

Lemma service_log_delegates_witness :
  let service := mkService (database_sink "db" sample_page) in
  let w := world_with (entry_without_ts LogLevel.info) in
  LoggingService_log service (tenant "") 1%positive w =
  (mkWorld (log (logging service) (tenant "") 1%positive (env w)).1
           (calls w ++ [CallLog Logging (tenant "") 1%positive]),
   (log (logging service) (tenant "") 1%positive (env w)).2).
Proof.
  apply (service_log_delegates (mkService (database_sink "db" sample_page))
           (tenant "") 1%positive "" (entry_without_ts LogLevel.info)).
  - reflexivity.
  - reflexivity.
Defined.

(** Without a multiplexer in between nothing stamps the entry: the sink
    writes it as it came. *)
Example service_alone_does_not_stamp :
  let service := mkService (memory_sink "A") in
  let run := LoggingService_log service (tenant "t1") 1%positive
               (world_with (entry_without_ts LogLevel.info)) in
  run.2 = Fulfilled None
  ∧ store (env run.1) = [("A", entry_without_ts LogLevel.info)]
  ∧ ts_at 1%positive (env run.1) = Some None.
Proof. repeat split; reflexivity. Qed.

Lemma service_log_rejects_entry_that_is_no_object_witness :
  ∃ e, LoggingService_log (mkService (memory_sink "A")) (tenant "t1") 1%positive
         empty_world = (empty_world, Rejected e)
       ∧ is_validation_error e = true.
Proof.
  apply (service_log_rejects_entry_that_is_no_object (mkService (memory_sink "A"))
           (tenant "t1") 1%positive "t1" empty_world).
  - reflexivity.
  - reflexivity.
Defined.

Lemma service_query_returns_connector_outcome_witness :
  LoggingService_query (mkService (memory_sink "console")) (tenant "t1")
    (Some LogLevel.warn) None None None (Some "next") (Some (Num 5)) empty_world =
  (mkWorld (env empty_world)
     [CallQuery Logging (tenant "t1")
        (Some (ComparatorGroup [Comparator "level" Equals (JsString "warn")] And))
        (Some [mkSort "ts" Descending]) None (Some "next") (Some (Num 5))],
   Rejected (NotImplementedError.new "console" "query")).
Proof.
  apply (service_query_returns_connector_outcome
           (mkService (memory_sink "console")) (tenant "t1") "t1"
           (Some LogLevel.warn) None None None (Some "next") (Some (Num 5))
           empty_world).
  reflexivity.
Defined.

Lemma service_over_multiplexer_rejects_empty_tenant_witness :
  let multi := mkMulti [memory_sink "A"] all_levels in
  let w := world_with (entry_without_ts LogLevel.info) in
  ∃ e,
    LoggingService_log (mkService (MultiLoggingConnector_connector multi))
      (tenant "") 1%positive w =
    (mkWorld (env w) (calls w ++ [CallLog Logging (tenant "") 1%positive]),
     Rejected e)
    ∧ is_validation_error e = true
    ∧ BaseError.source e = "MultiLoggingConnector".
Proof.
  apply (service_over_multiplexer_rejects_empty_tenant
           (mkMulti [memory_sink "A"] all_levels) (tenant "") 1%positive
           (entry_without_ts LogLevel.info)).
  - reflexivity.
  - reflexivity.
Defined.

Lemma service_over_multiplexer_logs_witness :
  let multi := mkMulti [broken_sink "A"; memory_sink "B"] all_levels in
  let w := world_with (entry_without_ts LogLevel.info) in
  LoggingService_log (mkService (MultiLoggingConnector_connector multi))
    (tenant "t1") 1%positive w =
  (mkWorld
     (env_after_logs (tenant "t1") 1%positive (_loggingConnectors multi)
        (stamp 1%positive (env w)))
     (calls w ++ [CallLog Logging (tenant "t1") 1%positive]),
   Fulfilled None).
Proof.
  apply (service_over_multiplexer_logs
           (mkMulti [broken_sink "A"; memory_sink "B"] all_levels)
           (tenant "t1") 1%positive (entry_without_ts LogLevel.info)).
  - reflexivity.
  - reflexivity.
  - simpl. unfold all_levels. set_solver.
Defined.

(** A multiplexer inside a multiplexer: the inner one has no sink that can be
    queried and is passed over like any such sink. *)
Example nested_multiplexer_is_passed_over :
  let inner := mkMulti [memory_sink "A"; memory_sink "B"] [LogLevel.error] in
  let outer := mkMulti [MultiLoggingConnector_connector inner;
                        database_sink "db" sample_page] all_levels in
  MultiLoggingConnector_query outer (tenant "t1") None None None None None
    empty_world =
  (mkWorld (env empty_world)
     [CallQuery (Sub 0) (tenant "t1") None None None None None;
      CallQuery (Sub 1) (tenant "t1") None None None None None],
   Fulfilled sample_page).
Proof. reflexivity. Qed.

Lemma log_throws_before_any_call_witness :
  let multi := mkMulti [memory_sink "A"; broken_sink "B"] all_levels in
  let w := world_with (entry_without_ts LogLevel.info) in
  (MultiLoggingConnector_log multi no_tenant 1%positive w).1 = w.
Proof.
  apply (log_throws_before_any_call
           (mkMulti [memory_sink "A"; broken_sink "B"] all_levels)
           no_tenant 1%positive (world_with (entry_without_ts LogLevel.info))
           (GuardError.new "MultiLoggingConnector" "guard.string"
              "requestContext.tenantId" JsUndefined)).
  reflexivity.
Defined.

(** The two string tests differ on white space: a space passes the length
    test of the guard and fails [Is.stringValue]. *)
Example a_space_is_a_tenant_but_no_source :
  non_empty_string (JsString " ") = true
  ∧ Is.stringValue (JsString " ") = false
  ∧ Is.stringValue (JsString " auth ") = true
  ∧ Is.stringValue (JsString "") = false
  ∧ Is.number (JsNumber NegInfinity) = false
  ∧ Is.number (JsNumber (Frac 3 2)) = true.
Proof. repeat split; reflexivity. Qed.
